(** * mpanatitra: an HTML-injecting reverse proxy (server.js)

    A shallow embedding of the response-rewriting core of [server.js]:
    the path-exclusion matcher, the response interceptor with its
    eligibility guards, and the injector [injectIntoHtml], together with
    the ECMAScript string operations they call. *)

From Stdlib Require Import NArith String Ascii DecimalString DecimalNat.
From stdpp Require Import gmap strings list fin_maps.

Local Open Scope N_scope.

(** ** JavaScript strings

    A JavaScript string is a finite sequence of UTF-16 code units. *)

Abbreviation code_unit := N (only parsing).
Abbreviation jsstring := (list N) (only parsing).
Abbreviation byte := N (only parsing).

(** An ASCII literal as a sequence of code units. *)
Definition js (s : string) : jsstring :=
  N_of_ascii <$> list_ascii_of_string s.

(** ToBoolean on a string: the empty string is the only falsy one. *)
Definition truthy (s : jsstring) : bool :=
  match s with [] => false | _ :: _ => true end.

(** [a || d] where [a] is a string or undefined. *)
Definition js_or (a : option jsstring) (d : jsstring) : jsstring :=
  match a with
  | Some s => if truthy s then s else d
  | None => d
  end.

(** [a !== b] on two strings. *)
Definition strict_neq (a b : jsstring) : bool := negb (bool_decide (a = b)).

(** [p] is a prefix of [s]. *)
Fixpoint startsWith (s p : jsstring) : bool :=
  match p, s with
  | [], _ => true
  | _ :: _, [] => false
  | c :: p', d :: s' => (c =? d) && startsWith s' p'
  end.

(** StringIndexOf(s, m, 0): the smallest index at which [m] occurs in [s],
    [None] for NOT-FOUND. *)
Fixpoint indexOf (s m : jsstring) : option nat :=
  if startsWith s m then Some 0%nat
  else match s with
       | [] => None
       | _ :: s' => S <$> indexOf s' m
       end.

(** String.prototype.includes *)
Definition includes (s m : jsstring) : bool :=
  match indexOf s m with Some _ => true | None => false end.

Definition DOLLAR : code_unit := 36.
Definition AMPERSAND : code_unit := 38.
Definition APOSTROPHE : code_unit := 39.
Definition BACKTICK : code_unit := 96.

(** GetSubstitution(matched, str, position, captures, namedCaptures,
    replacementTemplate) with an empty capture list and no named captures,
    which is how String.prototype.replace calls it for a string pattern.
    With no captures [$n], [$nn] and [$<] stand for themselves, so the
    dollar sign is copied and the scan goes on behind it. *)
Fixpoint GetSubstitution (matched str : jsstring) (position : nat)
    (template : jsstring) : jsstring :=
  match template with
  | [] => []
  | c :: rest =>
    if c =? DOLLAR then
      match rest with
      | [] => [c]
      | d :: rest' =>
        if d =? DOLLAR then
          DOLLAR :: GetSubstitution matched str position rest'
        else if d =? BACKTICK then
          take position str ++ GetSubstitution matched str position rest'
        else if d =? AMPERSAND then
          matched ++ GetSubstitution matched str position rest'
        else if d =? APOSTROPHE then
          drop (Nat.min (position + length matched) (length str)) str
            ++ GetSubstitution matched str position rest'
        else c :: GetSubstitution matched str position rest
      end
    else c :: GetSubstitution matched str position rest
  end.

(** String.prototype.replace(searchValue, replaceValue), both strings. *)
Definition replace (s searchString replaceValue : jsstring) : jsstring :=
  match indexOf s searchString with
  | None => s
  | Some position =>
    let preceding := take position s in
    let following := drop (position + length searchString) s in
    preceding ++ GetSubstitution searchString s position replaceValue
      ++ following
  end.

(** The loop of String.prototype.split for a non-empty separator: cut at the
    first occurrence and go on behind it.  Every round consumes at least one
    code unit, so [length s] rounds are enough ([split_loop_fuel]). *)
Fixpoint split_loop (fuel : nat) (s separator : jsstring) : list jsstring :=
  match fuel with
  | O => [s]
  | S fuel' =>
    match indexOf s separator with
    | None => [s]
    | Some j =>
      take j s :: split_loop fuel' (drop (j + length separator) s) separator
    end
  end.

(** String.prototype.split(separator) with a string separator and no limit:
    an empty separator cuts between all code units. *)
Definition split (s separator : jsstring) : list jsstring :=
  match separator with
  | [] => (λ c, [c]) <$> s
  | _ :: _ => split_loop (length s) s separator
  end.

(** Array.prototype.join on an array of strings. *)
Fixpoint join (parts : list jsstring) (separator : jsstring) : jsstring :=
  match parts with
  | [] => []
  | [x] => x
  | x :: parts' => x ++ separator ++ join parts' separator
  end.

(** WhiteSpace and LineTerminator code units, the ones trim strips. *)
Definition isWhiteSpace (c : code_unit) : bool :=
  (9 <=? c) && (c <=? 13) || (c =? 32) || (c =? 160) || (c =? 5760)
  || (8192 <=? c) && (c <=? 8202) || (c =? 8232) || (c =? 8233)
  || (c =? 8239) || (c =? 8287) || (c =? 12288) || (c =? 65279).

Fixpoint trimStart (s : jsstring) : jsstring :=
  match s with
  | [] => []
  | c :: s' => if isWhiteSpace c then trimStart s' else s
  end.

Definition trimEnd (s : jsstring) : jsstring :=
  reverse (trimStart (reverse s)).

(** String.prototype.trim *)
Definition trim (s : jsstring) : jsstring := trimEnd (trimStart s).

(** ** UTF-8 length of a string: Buffer.byteLength(s, "utf8") *)

Definition isLeadSurrogate (c : code_unit) : bool :=
  (55296 <=? c) && (c <=? 56319).
Definition isTrailSurrogate (c : code_unit) : bool :=
  (56320 <=? c) && (c <=? 57343).

(** U+FFFD, written for every unpaired surrogate. *)
Definition REPLACEMENT : list byte := [239; 191; 189].

Fixpoint utf8_encode (s : jsstring) : list byte :=
  match s with
  | [] => []
  | c :: s' =>
    if c <? 128 then c :: utf8_encode s'
    else if c <? 2048 then
      192 + c / 64 :: 128 + c mod 64 :: utf8_encode s'
    else if isLeadSurrogate c then
      match s' with
      | d :: s'' =>
        if isTrailSurrogate d then
          let cp := 65536 + (c - 55296) * 1024 + (d - 56320) in
          240 + cp / 262144 :: 128 + (cp / 4096) mod 64
            :: 128 + (cp / 64) mod 64 :: 128 + cp mod 64 :: utf8_encode s''
        else REPLACEMENT ++ utf8_encode s'
      | [] => REPLACEMENT
      end
    else if isTrailSurrogate c then REPLACEMENT ++ utf8_encode s'
    else
      224 + c / 4096 :: 128 + (c / 64) mod 64 :: 128 + c mod 64
        :: utf8_encode s'
  end.

Definition byteLength (s : jsstring) : nat := length (utf8_encode s).

(** Number.prototype.toString() of a non-negative integer. *)
Definition Number_toString (n : nat) : jsstring :=
  js (NilEmpty.string_of_uint (Nat.to_uint n)).

(** ** Configuration: the module-level constants of server.js *)

(** A compiled regular expression without flags, known by what
    [rx.test(path)] answers. *)
Record RegExp := { test : jsstring → bool }.

Record Config := {
  INJECT_HTML : jsstring;
  INJECT_TARGET : jsstring;
  INJECT_MODE : jsstring;
  INJECT_ONCE : bool;
  CT_MATCH : jsstring;
  INJECT_IF_HEADER : jsstring;
  EXCLUDE_PATTERNS : list RegExp
}.

(** ** The injector *)

Record InjectionResult := { out : jsstring; changed : bool }.

(** The local constant [payload] of injectIntoHtml. *)
Definition payload (cfg : Config) : jsstring :=
  if bool_decide (INJECT_MODE cfg = js "after")
  then INJECT_TARGET cfg ++ INJECT_HTML cfg
  else INJECT_HTML cfg ++ INJECT_TARGET cfg.

Definition injectIntoHtml (cfg : Config) (html : jsstring) : InjectionResult :=
  if negb (truthy (trim (INJECT_HTML cfg))) then
    {| out := html; changed := false |}
  else if negb (includes html (INJECT_TARGET cfg)) then
    {| out := html; changed := false |}
  else if INJECT_ONCE cfg then
    let out := replace html (INJECT_TARGET cfg) (payload cfg) in
    {| out := out; changed := strict_neq out html |}
  else
    let out := join (split html (INJECT_TARGET cfg)) (payload cfg) in
    {| out := out; changed := strict_neq out html |}.

(** ** The JavaScript runtime

    What server.js takes from the platform and this development does not
    spell out: Unicode lower-casing, UTF-8 decoding of a Buffer, and the
    RegExp compiler ([None] when the constructor throws).  On ASCII text
    lower-casing is the familiar one, whatever the runtime. *)

Definition asciiLower (c : code_unit) : code_unit :=
  if (65 <=? c) && (c <=? 90) then c + 32 else c.

Class JsRuntime := {
  toLowerCase : jsstring → jsstring;
  Buffer_toString : list byte → jsstring;
  RegExp_new : jsstring → option RegExp;
  toLowerCase_ascii :
    ∀ s, Forall (λ c, c < 128) s → toLowerCase s = asciiLower <$> s
}.

Section Server.
Context `{JsRuntime}.

(** *** Resolving the environment (lines 15-91) *)

Definition QUOTE : code_unit := 34.

Definition DEFAULT_INJECT_HTML : jsstring :=
  js "<script defer src=" ++ [QUOTE]
    ++ js "https://analytics.kahiether.com/script.js" ++ [QUOTE]
    ++ js " data-website-id=" ++ [QUOTE] ++ js "xxxx" ++ [QUOTE]
    ++ js "></script>".

(** [process.env] maps variable names to strings.  The exclusion patterns
    are compiled here, once; a pattern that does not compile stops the
    start-up ([None]). *)
Definition resolveConfig (env : gmap string jsstring) : option Config :=
  let EXCLUDE_RAW :=
    js_or (env !! "INJECT_EXCLUDE_PATHS"%string)
          (js "^/wp-admin,^/wp-json,^/xmlrpc.php") in
  patterns ←
    mapM RegExp_new
      (List.filter truthy (trim <$> split EXCLUDE_RAW (js ",")));
  Some {|
    INJECT_HTML := js_or (env !! "INJECT_HTML"%string) DEFAULT_INJECT_HTML;
    INJECT_TARGET := js_or (env !! "INJECT_TARGET"%string) (js "</head>");
    INJECT_MODE :=
      toLowerCase (js_or (env !! "INJECT_MODE"%string) (js "before"));
    INJECT_ONCE :=
      bool_decide
        (toLowerCase (js_or (env !! "INJECT_ONCE"%string) (js "true"))
         = js "true");
    CT_MATCH :=
      toLowerCase (js_or (env !! "INJECT_CT_MATCH"%string) (js "text/html"));
    INJECT_IF_HEADER :=
      toLowerCase (js_or (env !! "INJECT_IF_HEADER"%string) []);
    EXCLUDE_PATTERNS := patterns
  |}.

(** *** The path exclusion matcher *)

Definition isExcludedPath (cfg : Config) (path : jsstring) : bool :=
  existsb (λ rx, test rx path) (EXCLUDE_PATTERNS cfg).

(** *** The proxy callbacks *)

(** The incoming request: its URL and the flag onProxyReq leaves on it
    ([None] while the property is undefined). *)
Record Request := { url : jsstring; __skipInject : option bool }.

(** The upstream response as the interceptor sees it: its header object. *)
Record ProxyRes := { headers : gmap jsstring jsstring }.

(** onProxyReq: asks the upstream for an identity encoding and marks the
    request.  [proxyReq] is the header object of the outgoing request. *)
Definition onProxyReq (cfg : Config) (proxyReq : gmap jsstring jsstring)
    (req : Request) : gmap jsstring jsstring * Request :=
  (<[js "accept-encoding" := js "identity"]> proxyReq,
   {| url := url req; __skipInject := Some (isExcludedPath cfg (url req)) |}).

(** What the interceptor hands back: the Buffer it was given, or a string. *)
Inductive Body :=
  | BufferBody (buffer : list byte)
  | StringBody (s : jsstring).

(** One run of the interceptor: the value it resolves to, the response
    object as it leaves it, and the arguments of the calls it made to
    injectIntoHtml, in order. *)
Record Intercepted := {
  sent : Body;
  response : ProxyRes;
  injectCalls : list jsstring
}.

Definition passThrough (buffer : list byte) (proxyRes : ProxyRes) : Intercepted :=
  {| sent := BufferBody buffer; response := proxyRes; injectCalls := [] |}.

(** Line 147: the content-type guard. *)
Definition contentTypeRejected (cfg : Config) (proxyRes : ProxyRes) : bool :=
  let ct := toLowerCase (js_or (headers proxyRes !! js "content-type") []) in
  truthy (CT_MATCH cfg) && negb (includes ct (CT_MATCH cfg)).

(** [Object.keys(proxyRes.headers)]; only membership is asked of it. *)
Definition Object_keys (h : gmap jsstring jsstring) : list jsstring :=
  (map_to_list h).*1.

(** Array.prototype.includes on an array of strings. *)
Definition Array_includes (l : list jsstring) (x : jsstring) : bool :=
  bool_decide (x ∈ l).

(** Lines 150-153: the required-header guard. *)
Definition requiredHeaderMissing (cfg : Config) (proxyRes : ProxyRes) : bool :=
  truthy (INJECT_IF_HEADER cfg)
  && negb (Array_includes (toLowerCase <$> Object_keys (headers proxyRes))
                          (INJECT_IF_HEADER cfg)).

(** The callback given to responseInterceptor under onProxyRes. *)
Definition onProxyRes (cfg : Config) (buffer : list byte) (proxyRes : ProxyRes)
    (req : Request) : Intercepted :=
  if bool_decide (__skipInject req = Some true) then passThrough buffer proxyRes
  else if contentTypeRejected cfg proxyRes then passThrough buffer proxyRes
  else if requiredHeaderMissing cfg proxyRes then passThrough buffer proxyRes
  else
    let html := Buffer_toString buffer in
    let r := injectIntoHtml cfg html in
    if negb (changed r) then
      {| sent := BufferBody buffer; response := proxyRes;
         injectCalls := [html] |}
    else
      {| sent := StringBody (out r);
         response :=
           {| headers :=
                <[js "content-length" := Number_toString (byteLength (out r))]>
                  (headers proxyRes) |};
         injectCalls := [html] |}.

(** One request through both callbacks, in the order the proxy runs them:
    onProxyReq when the request is sent upstream, the interceptor when the
    upstream response has been buffered. *)
Definition handle (cfg : Config) (req : Request) (buffer : list byte)
    (proxyRes : ProxyRes) : Intercepted :=
  let '(_, req') := onProxyReq cfg ∅ req in
  onProxyRes cfg buffer proxyRes req'.

End Server.

(** ** Vocabulary of the properties *)

(** A blank string: nothing but white space (the empty string included). *)
Definition blank (s : jsstring) : Prop :=
  Forall (λ c, isWhiteSpace c = true) s.

(** The template of a replacement holds no dollar sign. *)
Definition dollarFree (s : jsstring) : Prop := DOLLAR ∉ s.

(** Configurations that differ in one constant. *)
Definition with_mode (mode : jsstring) (cfg : Config) : Config :=
  {| INJECT_HTML := INJECT_HTML cfg; INJECT_TARGET := INJECT_TARGET cfg;
     INJECT_MODE := mode; INJECT_ONCE := INJECT_ONCE cfg;
     CT_MATCH := CT_MATCH cfg; INJECT_IF_HEADER := INJECT_IF_HEADER cfg;
     EXCLUDE_PATTERNS := EXCLUDE_PATTERNS cfg |}.

Definition with_once (once : bool) (cfg : Config) : Config :=
  {| INJECT_HTML := INJECT_HTML cfg; INJECT_TARGET := INJECT_TARGET cfg;
     INJECT_MODE := INJECT_MODE cfg; INJECT_ONCE := once;
     CT_MATCH := CT_MATCH cfg; INJECT_IF_HEADER := INJECT_IF_HEADER cfg;
     EXCLUDE_PATTERNS := EXCLUDE_PATTERNS cfg |}.

Definition with_patterns (patterns : list RegExp) (cfg : Config) : Config :=
  {| INJECT_HTML := INJECT_HTML cfg; INJECT_TARGET := INJECT_TARGET cfg;
     INJECT_MODE := INJECT_MODE cfg; INJECT_ONCE := INJECT_ONCE cfg;
     CT_MATCH := CT_MATCH cfg; INJECT_IF_HEADER := INJECT_IF_HEADER cfg;
     EXCLUDE_PATTERNS := patterns |}.

(** The insertion unit of the specification: marker then payload for
    AFTER, payload then marker for BEFORE. *)
Inductive Placement := BEFORE | AFTER.

Definition insertionUnit (p : Placement) (marker html : jsstring) : jsstring :=
  match p with
  | AFTER => marker ++ html
  | BEFORE => html ++ marker
  end.

(** The marker occurs in [body] at [a], again at [b] code units behind the
    first occurrence, and nowhere behind the second: two occurrences, read
    from the left, one behind the other. *)
Definition occursTwice (body marker a b c : jsstring) : Prop :=
  body = a ++ marker ++ b ++ marker ++ c
  ∧ indexOf body marker = Some (length a)
  ∧ indexOf (b ++ marker ++ c) marker = Some (length b)
  ∧ indexOf c marker = None.

(** The marker occurs in [body] behind [a] and nowhere else. *)
Definition occursOnce (body marker a c : jsstring) : Prop :=
  body = a ++ marker ++ c
  ∧ indexOf body marker = Some (length a)
  ∧ indexOf c marker = None.

(** ** A runtime for ASCII text, to run the model on examples *)

Definition utf16_of_code_point (cp : N) : jsstring :=
  if cp <? 65536 then [cp]
  else [55296 + (cp - 65536) / 1024; 56320 + (cp - 65536) mod 1024].

(** The first byte of a UTF-8 sequence: what it emits at once, and what it
    expects next (bytes still needed, code point so far, bounds of the next
    byte). *)
Definition utf8_start (b : byte) : jsstring * option (nat * N * N * N) :=
  if b <? 128 then ([b], None)
  else if (194 <=? b) && (b <=? 223) then
    ([], Some (1%nat, b - 192, 128, 191))
  else if (224 <=? b) && (b <=? 239) then
    ([], Some (2%nat, b - 224,
               if b =? 224 then 160 else 128, if b =? 237 then 159 else 191))
  else if (240 <=? b) && (b <=? 244) then
    ([], Some (3%nat, b - 240,
               if b =? 240 then 144 else 128, if b =? 244 then 143 else 191))
  else ([65533], None).

(** UTF-8 decoding with U+FFFD for every ill-formed sequence. *)
Fixpoint utf8_decode_from (st : option (nat * N * N * N)) (bs : list byte)
    : jsstring :=
  match bs with
  | [] => match st with None => [] | Some _ => [65533] end
  | b :: bs' =>
    match st with
    | None =>
      let '(o, st') := utf8_start b in o ++ utf8_decode_from st' bs'
    | Some (n, cp, lo, hi) =>
      if (lo <=? b) && (b <=? hi) then
        let cp' := cp * 64 + (b - 128) in
        match n with
        | 1%nat => utf16_of_code_point cp' ++ utf8_decode_from None bs'
        | _ => utf8_decode_from (Some (Nat.pred n, cp', 128, 191)) bs'
        end
      else
        65533 :: (let '(o, st') := utf8_start b in
                  o ++ utf8_decode_from st' bs')
    end
  end.

Definition utf8_decode (bs : list byte) : jsstring := utf8_decode_from None bs.

(** A compiler for the patterns of the default exclusion list: a caret, then
    code units that stand for themselves, a dot standing for any code unit
    but a line terminator.  Everything else is refused. *)
Definition isLineTerminator (c : code_unit) : bool :=
  (c =? 10) || (c =? 13) || (c =? 8232) || (c =? 8233).

Definition isSyntaxCharacter (c : code_unit) : bool :=
  bool_decide (c ∈ js "^$\.*+?()[]{}|").

Fixpoint matchHere (pattern s : jsstring) : bool :=
  match pattern, s with
  | [], _ => true
  | _ :: _, [] => false
  | p :: pattern', c :: s' =>
    (if p =? 46 then negb (isLineTerminator c) else p =? c)
    && matchHere pattern' s'
  end.

Definition compileAnchored (source : jsstring) : option RegExp :=
  match source with
  | 94 :: pattern =>
    if forallb (λ c, (c =? 46) || negb (isSyntaxCharacter c)) pattern
    then Some {| test := matchHere pattern |}
    else None
  | _ => None
  end.

#[export] Instance asciiRuntime : JsRuntime := {|
  toLowerCase := fmap asciiLower;
  Buffer_toString := utf8_decode;
  RegExp_new := compileAnchored;
  toLowerCase_ascii := λ s _, eq_refl
|}.

(** The content-type header of a response, the empty string when it has
    none. *)
Definition contentType (proxyRes : ProxyRes) : jsstring :=
  js_or (headers proxyRes !! js "content-type") [].

(** [f] is a substring of [s], letter case aside. *)
Definition ciIncludes `{JsRuntime} (s f : jsstring) : bool :=
  includes (toLowerCase s) (toLowerCase f).

(** Two names are the same, letter case aside. *)
Definition ciEqual `{JsRuntime} (a b : jsstring) : Prop :=
  toLowerCase a = toLowerCase b.

(** The interceptor hands the buffer back and leaves the response alone,
    without a call to the injector. *)
Definition forwardedUntouched (buffer : list byte) (proxyRes : ProxyRes)
    (o : Intercepted) : Prop :=
  sent o = BufferBody buffer ∧ response o = proxyRes ∧ injectCalls o = [].

(** ** Configurations and inputs of the examples *)

Definition with_html (html : jsstring) (cfg : Config) : Config :=
  {| INJECT_HTML := html; INJECT_TARGET := INJECT_TARGET cfg;
     INJECT_MODE := INJECT_MODE cfg; INJECT_ONCE := INJECT_ONCE cfg;
     CT_MATCH := CT_MATCH cfg; INJECT_IF_HEADER := INJECT_IF_HEADER cfg;
     EXCLUDE_PATTERNS := EXCLUDE_PATTERNS cfg |}.

Definition with_target (target : jsstring) (cfg : Config) : Config :=
  {| INJECT_HTML := INJECT_HTML cfg; INJECT_TARGET := target;
     INJECT_MODE := INJECT_MODE cfg; INJECT_ONCE := INJECT_ONCE cfg;
     CT_MATCH := CT_MATCH cfg; INJECT_IF_HEADER := INJECT_IF_HEADER cfg;
     EXCLUDE_PATTERNS := EXCLUDE_PATTERNS cfg |}.

Definition with_if_header (name : jsstring) (cfg : Config) : Config :=
  {| INJECT_HTML := INJECT_HTML cfg; INJECT_TARGET := INJECT_TARGET cfg;
     INJECT_MODE := INJECT_MODE cfg; INJECT_ONCE := INJECT_ONCE cfg;
     CT_MATCH := CT_MATCH cfg; INJECT_IF_HEADER := name;
     EXCLUDE_PATTERNS := EXCLUDE_PATTERNS cfg |}.

(** The defaults of server.js with a short script tag as payload and no
    exclusion pattern. *)
Definition plainConfig : Config :=
  {| INJECT_HTML := js "<script></script>"; INJECT_TARGET := js "</head>";
     INJECT_MODE := js "before"; INJECT_ONCE := true;
     CT_MATCH := js "text/html"; INJECT_IF_HEADER := [];
     EXCLUDE_PATTERNS := [] |}.

(** A payload whose script holds a dollar sign in front of a quote. *)
Definition dollarConfig : Config :=
  with_html (js "<script>a='$'</script>") plainConfig.

Definition page : jsstring := js "<head></head><body>hi</body>".

Definition pageTwice : jsstring := js "<head></head><p></head></p>".

(** A payload with a letter outside ASCII. *)
Definition accentConfig : Config :=
  with_html (js "<script>" ++ [233] ++ js "</script>") plainConfig.

(** The default exclusion pattern for the admin pages, compiled. *)
Definition adminPattern : RegExp := {| test := matchHere (js "/wp-admin") |}.

Definition adminConfig : Config := with_patterns [adminPattern] plainConfig.

Definition requiredHeaderConfig : Config :=
  with_if_header (js "x-inject") plainConfig.

Definition pageBytes : list byte := utf8_encode page.

Definition htmlResponse : ProxyRes :=
  {| headers := <[js "content-type" := js "text/html; charset=utf-8"]>
                  {[ js "content-length" := js "28" ]} |}.

Definition jsonResponse : ProxyRes :=
  {| headers := {[ js "content-type" := js "application/json" ]} |}.

Definition visit : Request := {| url := js "/"; __skipInject := Some false |}.

Definition adminVisit : Request :=
  {| url := js "/wp-admin/edit.php"; __skipInject := None |}.

(** ** Vocabulary of the further properties *)

(** Neither end of [s] is white space. *)
Definition trimmed (s : jsstring) : Prop :=
  (∀ c t, s = c :: t → isWhiteSpace c = false)
  ∧ (∀ c t, s = t ++ [c] → isWhiteSpace c = false).

(** The marker occurs in [s] at index [i]. *)
Definition occursAt (s marker : jsstring) (i : nat) : Prop :=
  ∃ a b, s = a ++ marker ++ b ∧ length a = i.

(** How many occurrences the loop of split finds, one behind the other. *)
Definition occurrences (s separator : jsstring) : nat :=
  (length (split s separator) - 1)%nat.

(** Every dollar sign written twice. *)
Fixpoint escapeDollars (s : jsstring) : jsstring :=
  match s with
  | [] => []
  | c :: s' =>
    if c =? DOLLAR then DOLLAR :: DOLLAR :: escapeDollars s'
    else c :: escapeDollars s'
  end.

(** The pattern sources that lines 87-90 hand to the RegExp constructor. *)
Definition excludeSources (env : gmap string jsstring) : list jsstring :=
  List.filter truthy
    (trim <$> split (js_or (env !! "INJECT_EXCLUDE_PATHS"%string)
                           (js "^/wp-admin,^/wp-json,^/xmlrpc.php"))
                    (js ",")).

(** The payload of [dollarConfig] with its dollar sign doubled. *)
Definition escapedConfig : Config :=
  with_html (js "<script>a='$$'</script>") plainConfig.

(** The variable is not set, or set to the empty string. *)
Definition unset (env : gmap string jsstring) (k : string) : Prop :=
  env !! k = None ∨ env !! k = Some [].

(** A response without headers, and one more visit to the admin pages. *)
Definition bareResponse : ProxyRes := {| headers := ∅ |}.

Definition adminQuery : Request :=
  {| url := js "/wp-admin/?page=1"; __skipInject := Some false |}.

Definition contentTypeRequiredConfig : Config :=
  with_if_header (js "content-type") plainConfig.

(** The number a string of decimal digits stands for. *)
Definition decimalValue (s : jsstring) : nat :=
  fold_left (λ acc c, (10 * acc + N.to_nat (c - 48))%nat) s 0%nat.

(** The path of a request URL: what stands in front of the query string. *)
Fixpoint pathname (url : jsstring) : jsstring :=
  match url with
  | [] => []
  | c :: rest => if c =? 63 then [] else c :: pathname rest
  end.

(** String.prototype.endsWith *)
Definition endsWith (s suffix : jsstring) : bool :=
  startsWith (reverse s) (reverse suffix).

(** The pattern \.php$, compiled: it matches what ends in .php. *)
Definition phpPattern : RegExp := {| test := λ s, endsWith s (js ".php") |}.

Definition phpConfig : Config := with_patterns [phpPattern] plainConfig.

Definition phpVisit : Request :=
  {| url := js "/index.php"; __skipInject := None |}.

Definition phpQuery : Request :=
  {| url := js "/index.php?x=1"; __skipInject := None |}.


(** ** Facts about the string operations *)

Lemma startsWith_app (s p : jsstring) :
  startsWith s p = true ↔ ∃ t, s = p ++ t.
Proof.
  revert s. induction p as [|c p IH]; intros s; simpl.
  - split; [intros _; by exists s | intros _; by destruct s].
  - destruct s as [|d s]; simpl.
    + split; [done | intros [t Ht]; discriminate].
    + rewrite andb_true_iff, N.eqb_eq, IH. split.
      * intros [-> [t ->]]. by exists t.
      * intros [t Ht]. injection Ht as -> ->. eauto.
Qed.

Lemma startsWith_nil_r (s : jsstring) : startsWith s [] = true.
Proof. by destruct s. Qed.

Lemma indexOf_cons (c : N) (s m : jsstring) :
  indexOf (c :: s) m
  = if startsWith (c :: s) m then Some 0%nat else S <$> indexOf s m.
Proof. reflexivity. Qed.

Lemma indexOf_Some (s m : jsstring) (j : nat) :
  indexOf s m = Some j → s = take j s ++ m ++ drop (j + length m) s.
Proof.
  revert j. induction s as [|c s IH]; intros j.
  - destruct m; simpl; [by intros [= <-] | done].
  - rewrite indexOf_cons. destruct (startsWith (c :: s) m) eqn:E.
    + intros [= <-]. apply startsWith_app in E as [t E].
      simpl. rewrite E at 2. by rewrite drop_app_length.
    + destruct (indexOf s m) as [k|] eqn:Ek; [|done].
      intros [= <-]. simpl. f_equal. by apply IH.
Qed.

Lemma indexOf_lt (s m : jsstring) (j : nat) :
  indexOf s m = Some j → (j + length m ≤ length s)%nat.
Proof.
  revert j. induction s as [|c s IH]; intros j.
  - destruct m; simpl; [by intros [= <-] | done].
  - rewrite indexOf_cons. destruct (startsWith (c :: s) m) eqn:E.
    + intros [= <-]. apply startsWith_app in E as [t E].
      rewrite E, length_app. lia.
    + destruct (indexOf s m) as [k|] eqn:Ek; [|done].
      intros [= <-]. specialize (IH k eq_refl). simpl. lia.
Qed.

Lemma indexOf_nil_r (s : jsstring) : indexOf s [] = Some 0%nat.
Proof. destruct s; done. Qed.

Lemma includes_nil_r (s : jsstring) : includes s [] = true.
Proof. unfold includes. by rewrite indexOf_nil_r. Qed.

Lemma includes_false (s m : jsstring) :
  includes s m = false ↔ indexOf s m = None.
Proof. unfold includes. destruct (indexOf s m); split; done. Qed.

Lemma strict_neq_true (a b : jsstring) : strict_neq a b = true ↔ a ≠ b.
Proof.
  unfold strict_neq. rewrite negb_true_iff, bool_decide_eq_false. done.
Qed.

Lemma strict_neq_refl (a : jsstring) : strict_neq a a = false.
Proof. unfold strict_neq. by rewrite bool_decide_eq_true_2. Qed.

Lemma trimStart_blank (s : jsstring) : blank s → trimStart s = [].
Proof.
  induction 1 as [|c s Hc _ IH]; simpl; [done|]. by rewrite Hc.
Qed.


Lemma indexOf_None_nonempty (s m : jsstring) : indexOf s m = None → m ≠ [].
Proof. intros Hn ->. by rewrite indexOf_nil_r in Hn. Qed.

Lemma take_drop_at (a m rest : jsstring) :
  take (length a) (a ++ m ++ rest) = a
  ∧ drop (length a + length m) (a ++ m ++ rest) = rest.
Proof.
  split.
  - by rewrite take_app_length.
  - by rewrite <- drop_drop, drop_app_length, drop_app_length.
Qed.

(** A template without dollar signs is inserted as it stands. *)
Lemma GetSubstitution_dollarFree (matched str : jsstring) (position : nat)
    (template : jsstring) :
  dollarFree template → GetSubstitution matched str position template = template.
Proof.
  unfold dollarFree. induction template as [|c rest IH]; [done|].
  intros Hc. apply not_elem_of_cons in Hc as [Hc Hrest]. simpl.
  destruct (c =? DOLLAR) eqn:E.
  - apply N.eqb_eq in E. congruence.
  - by rewrite IH.
Qed.

Lemma replace_dollarFree (s m u : jsstring) (j : nat) :
  indexOf s m = Some j → dollarFree u →
  replace s m u = take j s ++ u ++ drop (j + length m) s.
Proof.
  intros Hj Hu. unfold replace. rewrite Hj.
  by rewrite GetSubstitution_dollarFree.
Qed.

(** The loop of split stops by itself: more fuel than the length of the
    string changes nothing. *)
Lemma split_loop_fuel (m : jsstring) (f1 f2 : nat) (s : jsstring) :
  m ≠ [] → (length s ≤ f1)%nat → (length s ≤ f2)%nat →
  split_loop f1 s m = split_loop f2 s m.
Proof.
  intros Hm. revert f2 s. induction f1 as [|f1 IH]; intros f2 s H1 H2.
  - destruct s; [|simpl in H1; lia].
    destruct f2; simpl; [done|]. destruct m; done.
  - destruct f2 as [|f2].
    + destruct s; [|simpl in H2; lia]. simpl. destruct m; done.
    + simpl. destruct (indexOf s m) as [j|] eqn:Ej; [|done].
      f_equal. apply indexOf_lt in Ej.
      assert (0 < length m)%nat by (destruct m; [done | simpl; lia]).
      apply IH; rewrite length_drop; lia.
Qed.

Lemma split_loop_S (f : nat) (s m : jsstring) :
  split_loop (S f) s m
  = match indexOf s m with
    | None => [s]
    | Some j => take j s :: split_loop f (drop (j + length m) s) m
    end.
Proof. reflexivity. Qed.

Lemma split_loop_None (f : nat) (s m : jsstring) :
  indexOf s m = None → split_loop f s m = [s].
Proof. intros Hn. destruct f; simpl; [done|]. by rewrite Hn. Qed.

Lemma split_cut (a m rest : jsstring) :
  m ≠ [] → indexOf (a ++ m ++ rest) m = Some (length a) →
  split (a ++ m ++ rest) m = a :: split rest m.
Proof.
  intros Hm Hj. unfold split. destruct m as [|c m]; [done|].
  set (sep := c :: m) in *.
  assert (length (a ++ sep ++ rest) = S (length a + length m + length rest))
    as -> by (rewrite !length_app; simpl; lia).
  rewrite split_loop_S, Hj.
  destruct (take_drop_at a sep rest) as [-> ->].
  f_equal. apply split_loop_fuel; [done | lia | lia].
Qed.

Lemma split_None (s m : jsstring) : indexOf s m = None → split s m = [s].
Proof.
  intros Hn. unfold split. destruct m; [by rewrite indexOf_nil_r in Hn|].
  by apply split_loop_None.
Qed.

Lemma split_once (body m a c : jsstring) :
  occursOnce body m a c → split body m = [a; c].
Proof.
  intros (-> & Ha & Hc). pose proof (indexOf_None_nonempty _ _ Hc).
  rewrite split_cut by done. by rewrite split_None.
Qed.

Lemma split_twice (body m a b c : jsstring) :
  occursTwice body m a b c → split body m = [a; b; c].
Proof.
  intros (-> & Ha & Hb & Hc). pose proof (indexOf_None_nonempty _ _ Hc).
  rewrite split_cut by done. rewrite split_cut by done.
  by rewrite split_None.
Qed.

(** ** The injector *)

Lemma payload_before (cfg : Config) :
  INJECT_MODE cfg ≠ js "after" →
  payload cfg = insertionUnit BEFORE (INJECT_TARGET cfg) (INJECT_HTML cfg).
Proof. intros Hm. unfold payload. by rewrite bool_decide_eq_false_2. Qed.

Lemma payload_after (cfg : Config) :
  INJECT_MODE cfg = js "after" →
  payload cfg = insertionUnit AFTER (INJECT_TARGET cfg) (INJECT_HTML cfg).
Proof. intros Hm. unfold payload. by rewrite bool_decide_eq_true_2. Qed.

(** The injector with its two guards passed. *)
Lemma injectIntoHtml_found (cfg : Config) (html : jsstring) (j : nat) :
  truthy (trim (INJECT_HTML cfg)) = true →
  indexOf html (INJECT_TARGET cfg) = Some j →
  out (injectIntoHtml cfg html)
  = if INJECT_ONCE cfg
    then replace html (INJECT_TARGET cfg) (payload cfg)
    else join (split html (INJECT_TARGET cfg)) (payload cfg).
Proof.
  intros Hp Hj. unfold injectIntoHtml, includes. rewrite Hp, Hj. simpl.
  by destruct (INJECT_ONCE cfg).
Qed.


(** What the injector would do with an empty marker, which no start-up
    leaves behind ([resolveConfig_nonempty]): the payload goes in front when
    only the first occurrence is replaced, and between all code units
    otherwise. *)
Example inject_empty_marker_once :
  injectIntoHtml (with_target [] plainConfig) (js "ab")
  = {| out := js "<script></script>ab"; changed := true |}.
Proof. reflexivity. Qed.

Example inject_empty_marker_all :
  injectIntoHtml (with_once false (with_target [] plainConfig)) (js "ab")
  = {| out := js "a<script></script>b"; changed := true |}.
Proof. reflexivity. Qed.

(** C5: the changed flag is the outcome of comparing output and input: it
    is set exactly when the output differs from the body, so an output that
    is equal to the body is reported as unchanged. *)
Theorem changed_iff_differs (cfg : Config) (html : jsstring) :
  (changed (injectIntoHtml cfg html) = true
   ↔ out (injectIntoHtml cfg html) ≠ html)
  ∧ (out (injectIntoHtml cfg html) = html
     ↔ changed (injectIntoHtml cfg html) = false).
Proof.
  assert (changed (injectIntoHtml cfg html)
          = strict_neq (out (injectIntoHtml cfg html)) html) as ->.
  { unfold injectIntoHtml.
    destruct (negb (truthy _)); [by rewrite strict_neq_refl|].
    destruct (negb (includes _ _)); [by rewrite strict_neq_refl|].
    by destruct (INJECT_ONCE cfg). }
  split; [apply strict_neq_true|].
  destruct (strict_neq _ html) eqn:E.
  - apply strict_neq_true in E. split; [done | discriminate].
  - split; [done | intros _]. unfold strict_neq in E.
    apply negb_false_iff in E. by apply bool_decide_eq_true in E.
Qed.

(** A replacement that writes the body back: the marker is found and
    replaced, the output is the input, and changed is false. *)
Example degenerate_replacement :
  let cfg := with_target (js "M") (with_html (js "$`") plainConfig) in
  includes (js "M") (INJECT_TARGET cfg) = true
  ∧ injectIntoHtml cfg (js "M") = {| out := js "M"; changed := false |}.
Proof. split; reflexivity. Qed.

(** Where the template holds no dollar sign, replacing the first occurrence
    puts the insertion unit in the place of the marker. *)
Lemma inject_once_literal (cfg : Config) (html : jsstring) (j : nat) :
  truthy (trim (INJECT_HTML cfg)) = true → INJECT_ONCE cfg = true →
  indexOf html (INJECT_TARGET cfg) = Some j → dollarFree (payload cfg) →
  out (injectIntoHtml cfg html)
  = take j html ++ payload cfg ++ drop (j + length (INJECT_TARGET cfg)) html.
Proof.
  intros Hp Ho Hj Hd. rewrite (injectIntoHtml_found cfg html j Hp Hj), Ho.
  by apply replace_dollarFree.
Qed.

(** X21: replacing all occurrences, a body in which the marker occurs
    twice comes out with the insertion unit in the place of both. *)
Lemma inject_all_twice (cfg : Config) (html a b c : jsstring) :
  truthy (trim (INJECT_HTML cfg)) = true → INJECT_ONCE cfg = false →
  occursTwice html (INJECT_TARGET cfg) a b c →
  out (injectIntoHtml cfg html) = a ++ payload cfg ++ b ++ payload cfg ++ c.
Proof.
  intros Hp Ho Ht. pose proof Ht as (_ & Ha & _).
  rewrite (injectIntoHtml_found cfg html _ Hp Ha), Ho.
  by rewrite (split_twice _ _ _ _ _ Ht).
Qed.

(** X22: replacing the first occurrence of a marker that occurs twice,
    with an insertion unit that holds no dollar sign: the unit stands in
    the place of the first occurrence and the second occurrence stays. *)
Lemma inject_once_twice (cfg : Config) (html a b c : jsstring) :
  truthy (trim (INJECT_HTML cfg)) = true → INJECT_ONCE cfg = true →
  occursTwice html (INJECT_TARGET cfg) a b c → dollarFree (payload cfg) →
  out (injectIntoHtml cfg html)
  = a ++ payload cfg ++ b ++ INJECT_TARGET cfg ++ c.
Proof.
  intros Hp Ho (-> & Ha & _) Hd.
  rewrite (inject_once_literal cfg _ _ Hp Ho Ha Hd).
  by destruct (take_drop_at a (INJECT_TARGET cfg) (b ++ INJECT_TARGET cfg ++ c))
    as [-> ->].
Qed.

(** X23: with one occurrence of the marker and no dollar sign in the
    insertion unit, both occurrence policies give the same output. *)
Lemma inject_once_all_agree (cfg : Config) (html a c : jsstring) :
  truthy (trim (INJECT_HTML cfg)) = true →
  occursOnce html (INJECT_TARGET cfg) a c → dollarFree (payload cfg) →
  out (injectIntoHtml (with_once true cfg) html)
  = out (injectIntoHtml (with_once false cfg) html).
Proof.
  intros Hp Hocc Hd. pose proof Hocc as (-> & Ha & _).
  rewrite (inject_once_literal (with_once true cfg) _ _ Hp eq_refl Ha Hd).
  rewrite (injectIntoHtml_found (with_once false cfg) _ _ Hp Ha). simpl.
  rewrite (split_once _ _ _ _ Hocc). simpl.
  by destruct (take_drop_at a (INJECT_TARGET cfg) c) as [-> ->].
Qed.

(** C2 at a payload with a dollar sign: the marker occurs twice; replacing
    all occurrences writes the insertion unit at both, but replacing only
    the first writes, in place of the dollar sign and the quote behind it,
    the rest of the page, so what stands at the first occurrence is not the
    insertion unit. *)
Theorem first_only_twice_dollar :
  occursTwice pageTwice (js "</head>") (js "<head>") (js "<p>") (js "</p>")
  ∧ payload dollarConfig = js "<script>a='$'</script></head>"
  ∧ out (injectIntoHtml (with_once false dollarConfig) pageTwice)
    = js "<head>" ++ payload dollarConfig ++ js "<p>"
        ++ payload dollarConfig ++ js "</p>"
  ∧ out (injectIntoHtml dollarConfig pageTwice)
    = js "<head><script>a='<p></head></p></script></head><p></head></p>"
  ∧ out (injectIntoHtml dollarConfig pageTwice)
    ≠ js "<head>" ++ payload dollarConfig ++ js "<p></head></p>".
Proof. repeat split; vm_compute; congruence. Qed.

(** C3 at a payload with a dollar sign, placement AFTER, first occurrence
    only: behind the marker the output does not hold the payload; the
    payload occurs nowhere in it. *)
Theorem after_marker_dollar :
  let cfg := with_mode (js "after") dollarConfig in
  indexOf page (INJECT_TARGET cfg) = Some 6%nat
  ∧ payload cfg = insertionUnit AFTER (INJECT_TARGET cfg) (INJECT_HTML cfg)
  ∧ out (injectIntoHtml cfg page)
    = js "<head></head><script>a='<body>hi</body></script><body>hi</body>"
  ∧ out (injectIntoHtml cfg page)
    ≠ take 6 page ++ payload cfg ++ drop (6 + length (INJECT_TARGET cfg)) page
  ∧ includes (out (injectIntoHtml cfg page)) (INJECT_HTML cfg) = false.
Proof. repeat split; vm_compute; congruence. Qed.

(** C4 at a payload with a dollar sign: the marker occurs once in the page,
    and the two occurrence policies give different outputs. *)
Theorem once_all_differ_dollar :
  occursOnce page (js "</head>") (js "<head>") (js "<body>hi</body>")
  ∧ out (injectIntoHtml (with_once true dollarConfig) page)
    = js "<head><script>a='<body>hi</body></script></head><body>hi</body>"
  ∧ out (injectIntoHtml (with_once false dollarConfig) page)
    = js "<head><script>a='$'</script></head><body>hi</body>"
  ∧ out (injectIntoHtml (with_once true dollarConfig) page)
    ≠ out (injectIntoHtml (with_once false dollarConfig) page).
Proof. repeat split; vm_compute; congruence. Qed.

(** ** UTF-8 length against the number of code units *)

Lemma utf8_encode_cons (c : N) (s' : jsstring) :
  utf8_encode (c :: s')
  = if c <? 128 then c :: utf8_encode s'
    else if c <? 2048 then
      192 + c / 64 :: 128 + c mod 64 :: utf8_encode s'
    else if isLeadSurrogate c then
      match s' with
      | d :: s'' =>
        if isTrailSurrogate d then
          let cp := 65536 + (c - 55296) * 1024 + (d - 56320) in
          240 + cp / 262144 :: 128 + (cp / 4096) mod 64
            :: 128 + (cp / 64) mod 64 :: 128 + cp mod 64 :: utf8_encode s''
        else REPLACEMENT ++ utf8_encode s'
      | [] => REPLACEMENT
      end
    else if isTrailSurrogate c then REPLACEMENT ++ utf8_encode s'
    else
      224 + c / 4096 :: 128 + (c / 64) mod 64 :: 128 + c mod 64
        :: utf8_encode s'.
Proof. reflexivity. Qed.

Lemma byteLength_bounds (n : nat) (s : jsstring) :
  (length s ≤ n)%nat →
  (length s ≤ byteLength s)%nat
  ∧ (Exists (λ c, 128 ≤ c) s → (length s < byteLength s)%nat).
Proof.
  unfold byteLength. revert s. induction n as [|n IH]; intros s Hn.
  - destruct s; [|simpl in Hn; lia]. split; [done|]. by intros ?%Exists_nil.
  - destruct s as [|c s']; [split; [done | by intros ?%Exists_nil]|].
    simpl in Hn. destruct (IH s' ltac:(lia)) as [Hle Hlt].
    rewrite utf8_encode_cons. destruct (c <? 128) eqn:E1.
    { apply N.ltb_lt in E1. simpl. split; [lia|].
      intros [Hc | Hs']%Exists_cons; [lia | specialize (Hlt Hs'); lia]. }
    destruct (c <? 2048); [simpl; lia|].
    destruct (isLeadSurrogate c); [|destruct (isTrailSurrogate c); simpl; lia].
    destruct s' as [|d s'']; [simpl; lia|].
    destruct (isTrailSurrogate d); [|simpl in *; lia].
    simpl in Hn. destruct (IH s'' ltac:(lia)) as [Hle' _]. simpl. lia.
Qed.

(** The UTF-8 length is at least the number of code units, and more as soon
    as one code unit is outside ASCII. *)
Lemma byteLength_ge_length (s : jsstring) : (length s ≤ byteLength s)%nat.
Proof. by apply (byteLength_bounds (length s)). Qed.

Lemma byteLength_gt_length (s : jsstring) :
  Exists (λ c, 128 ≤ c) s → (length s < byteLength s)%nat.
Proof. by apply (byteLength_bounds (length s)). Qed.

(** ** The configuration and the proxy callbacks *)

Section ServerFacts.
Context `{JsRuntime}.

Lemma js_or_nonempty (a : option jsstring) (d : jsstring) :
  d ≠ [] → js_or a d ≠ [].
Proof.
  intros Hd. unfold js_or. destruct a as [[|c s]|]; simpl; done.
Qed.

(** The constants a successful start-up leaves behind. *)
Lemma resolveConfig_Some (env : gmap string jsstring) (cfg : Config) :
  resolveConfig env = Some cfg →
  INJECT_HTML cfg = js_or (env !! "INJECT_HTML"%string) DEFAULT_INJECT_HTML
  ∧ INJECT_TARGET cfg = js_or (env !! "INJECT_TARGET"%string) (js "</head>")
  ∧ INJECT_MODE cfg
    = toLowerCase (js_or (env !! "INJECT_MODE"%string) (js "before"))
  ∧ CT_MATCH cfg
    = toLowerCase (js_or (env !! "INJECT_CT_MATCH"%string) (js "text/html"))
  ∧ INJECT_IF_HEADER cfg
    = toLowerCase (js_or (env !! "INJECT_IF_HEADER"%string) []).
Proof.
  unfold resolveConfig. destruct (mapM _ _); simpl; [|done].
  by intros [= <-].
Qed.

(** Neither the payload nor the marker of a resolved configuration is the
    empty string: an empty variable gives way to the default. *)
Lemma resolveConfig_nonempty (env : gmap string jsstring) (cfg : Config) :
  resolveConfig env = Some cfg →
  INJECT_HTML cfg ≠ [] ∧ INJECT_TARGET cfg ≠ [].
Proof.
  intros (-> & -> & _)%resolveConfig_Some.
  split; by apply js_or_nonempty.
Qed.

Lemma inject_mode_irrelevant (cfg cfg' : Config) (html : jsstring) :
  INJECT_HTML cfg' = INJECT_HTML cfg → INJECT_TARGET cfg' = INJECT_TARGET cfg →
  INJECT_ONCE cfg' = INJECT_ONCE cfg →
  INJECT_MODE cfg ≠ js "after" → INJECT_MODE cfg' ≠ js "after" →
  injectIntoHtml cfg' html = injectIntoHtml cfg html.
Proof.
  intros Hh Ht Ho Hm Hm'. unfold injectIntoHtml.
  rewrite (payload_before cfg Hm), (payload_before cfg' Hm').
  by rewrite Hh, Ht, Ho.
Qed.

Lemma passThrough_untouched (buffer : list byte) (proxyRes : ProxyRes) :
  forwardedUntouched buffer proxyRes (passThrough buffer proxyRes).
Proof. done. Qed.

(** The three guards of the interceptor, in the order they are tried. *)
Lemma onProxyRes_guarded (cfg : Config) (buffer : list byte)
    (proxyRes : ProxyRes) (req : Request) :
  __skipInject req = Some true ∨ contentTypeRejected cfg proxyRes = true
  ∨ requiredHeaderMissing cfg proxyRes = true →
  onProxyRes cfg buffer proxyRes req = passThrough buffer proxyRes.
Proof.
  unfold onProxyRes. intros [Hs | [Hc | Hh]].
  - by rewrite bool_decide_eq_true_2.
  - rewrite Hc. by destruct (bool_decide _).
  - rewrite Hh. destruct (bool_decide _); [done|].
    by destruct (contentTypeRejected _ _).
Qed.

(** C6: with a content-type filter configured and not empty, a response
    whose content-type header does not hold the filter as a substring,
    letter case aside, is handed back as it came: same buffer, same
    response object, no call to the injector.  A header that holds the
    filter passes the content-type guard. *)
Theorem content_type_filter (cfg : Config) (filter : jsstring)
    (buffer : list byte) (proxyRes : ProxyRes) (req : Request) :
  CT_MATCH cfg = toLowerCase filter → CT_MATCH cfg ≠ [] →
  (ciIncludes (contentType proxyRes) filter = false →
   contentTypeRejected cfg proxyRes = true
   ∧ forwardedUntouched buffer proxyRes (onProxyRes cfg buffer proxyRes req))
  ∧ (ciIncludes (contentType proxyRes) filter = true →
     contentTypeRejected cfg proxyRes = false).
Proof.
  intros Hf Hne. unfold ciIncludes, contentType.
  assert (truthy (CT_MATCH cfg) = true) as Ht by (by destruct (CT_MATCH cfg)).
  split; intros Hi.
  - assert (contentTypeRejected cfg proxyRes = true) as Hr.
    { unfold contentTypeRejected. by rewrite Ht, Hf, Hi. }
    split; [done|]. rewrite onProxyRes_guarded by auto.
    apply passThrough_untouched.
  - unfold contentTypeRejected. by rewrite Ht, Hf, Hi.
Qed.

(** The example of the specification: the filter text/html against the
    header text/html; charset=utf-8, on every runtime. *)
Example content_type_with_charset (cfg : Config) (h : gmap jsstring jsstring) :
  CT_MATCH cfg = toLowerCase (js "text/html") →
  contentTypeRejected cfg
    {| headers := <[js "content-type" := js "Text/HTML; charset=utf-8"]> h |}
  = false.
Proof.
  intros Hf. unfold contentTypeRejected. simpl.
  rewrite lookup_insert_eq, Hf. simpl.
  rewrite !toLowerCase_ascii by (by repeat constructor).
  by vm_compute.
Qed.

Lemma Object_keys_dom (h : gmap jsstring jsstring) (k : jsstring) :
  k ∈ Object_keys h ↔ k ∈ dom h.
Proof.
  unfold Object_keys. rewrite elem_of_dom, list_elem_of_fmap. split.
  - intros [[k' v] [-> Hkv]]. apply elem_of_map_to_list in Hkv. by exists v.
  - intros [v Hv]. exists (k, v). split; [done|].
    by apply elem_of_map_to_list.
Qed.

Lemma Array_includes_lower_keys (h : gmap jsstring jsstring) (x : jsstring) :
  Array_includes (toLowerCase <$> Object_keys h) x = true
  ↔ ∃ k, k ∈ dom h ∧ toLowerCase k = x.
Proof.
  unfold Array_includes. rewrite bool_decide_eq_true, list_elem_of_fmap.
  split; intros [k [Hk Hin]]; exists k.
  - by apply Object_keys_dom in Hin.
  - split; [done|]. by apply Object_keys_dom.
Qed.

(** C7: with a required header name configured and not empty, the guard is
    passed exactly when the response has a header of that name, letter case
    aside; responses with the same header names fare alike whatever the
    values; and a response without the header is handed back as it came. *)
Theorem required_header_presence (cfg : Config) (name : jsstring)
    (buffer : list byte) (proxyRes : ProxyRes) (req : Request) :
  INJECT_IF_HEADER cfg = toLowerCase name → INJECT_IF_HEADER cfg ≠ [] →
  (requiredHeaderMissing cfg proxyRes = false
   ↔ ∃ k, k ∈ dom (headers proxyRes) ∧ ciEqual k name)
  ∧ (∀ proxyRes', dom (headers proxyRes') = dom (headers proxyRes) →
       requiredHeaderMissing cfg proxyRes' = requiredHeaderMissing cfg proxyRes)
  ∧ (requiredHeaderMissing cfg proxyRes = true →
     forwardedUntouched buffer proxyRes (onProxyRes cfg buffer proxyRes req)).
Proof.
  intros Hn Hne.
  assert (truthy (INJECT_IF_HEADER cfg) = true) as Ht
    by (by destruct (INJECT_IF_HEADER cfg)).
  assert (∀ r, requiredHeaderMissing cfg r = false
               ↔ ∃ k, k ∈ dom (headers r) ∧ ciEqual k name) as Hiff.
  { intros r. unfold requiredHeaderMissing, ciEqual. rewrite Ht. simpl.
    rewrite negb_false_iff, Array_includes_lower_keys. by rewrite Hn. }
  split; [apply Hiff|]. split.
  - intros proxyRes' Hdom.
    destruct (requiredHeaderMissing cfg proxyRes) eqn:E.
    + apply not_false_iff_true. rewrite Hiff, Hdom, <- Hiff. by rewrite E.
    + apply Hiff. rewrite Hdom. by apply Hiff.
  - intros Hm. rewrite onProxyRes_guarded by auto.
    apply passThrough_untouched.
Qed.

Lemma isExcludedPath_true (cfg : Config) (path : jsstring) :
  isExcludedPath cfg path = true
  ↔ ∃ rx, rx ∈ EXCLUDE_PATTERNS cfg ∧ test rx path = true.
Proof.
  unfold isExcludedPath. rewrite existsb_exists.
  split; intros [rx [Hin Ht]]; exists rx; by rewrite ?list_elem_of_In in *.
Qed.

(** X14: when the URL of a request as it was received, path and query
    string together, matches one of the exclusion patterns, onProxyReq
    marks the request, and the interceptor hands the buffer back
    as it came, headers untouched and the injector not called, whatever the
    response; the patterns are not looked at again when the response comes
    in. *)
Theorem excluded_path_untouched (cfg : Config)
    (proxyReq : gmap jsstring jsstring) (req : Request) (buffer : list byte)
    (proxyRes : ProxyRes) :
  (∃ rx, rx ∈ EXCLUDE_PATTERNS cfg ∧ test rx (url req) = true) →
  __skipInject (onProxyReq cfg proxyReq req).2 = Some true
  ∧ forwardedUntouched buffer proxyRes (handle cfg req buffer proxyRes)
  ∧ ∀ patterns,
      forwardedUntouched buffer proxyRes
        (onProxyRes (with_patterns patterns cfg) buffer proxyRes
           (onProxyReq cfg proxyReq req).2).
Proof.
  intros Hex%isExcludedPath_true. unfold handle. simpl. rewrite Hex.
  split; [done|]. split; [|intros patterns];
    rewrite onProxyRes_guarded by auto; apply passThrough_untouched.
Qed.

(** C9: when the interceptor has called the injector (on the decoded
    buffer) and the injector reports a change, the interceptor returns the
    new body and sets the content-length header of the response to the
    decimal length of the UTF-8 encoding of the new body, which is more
    than its number of code units as soon as one of them is outside ASCII;
    when the injector reports no change, the buffer and the response object
    are left as they came. *)
Theorem content_length_rewritten (cfg : Config) (buffer : list byte)
    (proxyRes : ProxyRes) (req : Request) (html : jsstring) :
  injectCalls (onProxyRes cfg buffer proxyRes req) = [html] →
  html = Buffer_toString buffer
  ∧ (changed (injectIntoHtml cfg html) = true →
     sent (onProxyRes cfg buffer proxyRes req)
     = StringBody (out (injectIntoHtml cfg html))
     ∧ headers (response (onProxyRes cfg buffer proxyRes req))
       = <[js "content-length" :=
             Number_toString (length (utf8_encode (out (injectIntoHtml cfg html))))]>
           (headers proxyRes)
     ∧ (Exists (λ c, 128 ≤ c) (out (injectIntoHtml cfg html)) →
        (length (out (injectIntoHtml cfg html))
         < length (utf8_encode (out (injectIntoHtml cfg html))))%nat))
  ∧ (changed (injectIntoHtml cfg html) = false →
     sent (onProxyRes cfg buffer proxyRes req) = BufferBody buffer
     ∧ response (onProxyRes cfg buffer proxyRes req) = proxyRes).
Proof.
  unfold onProxyRes.
  destruct (bool_decide _); [done|].
  destruct (contentTypeRejected _ _); [done|].
  destruct (requiredHeaderMissing _ _); [done|].
  destruct (changed (injectIntoHtml cfg (Buffer_toString buffer))) eqn:E;
    simpl; intros [= <-]; rewrite E; (split; [done|]); split; try done.
  intros _. split; [done|]. split; [done|]. apply byteLength_gt_length.
Qed.
End ServerFacts.

(** ** The theorems at work on the example runtime *)

Lemma content_type_filter_witness :
  CT_MATCH plainConfig = toLowerCase (js "text/html")
  ∧ CT_MATCH plainConfig ≠ []
  ∧ ciIncludes (contentType jsonResponse) (js "text/html") = false
  ∧ forwardedUntouched pageBytes jsonResponse
      (onProxyRes plainConfig pageBytes jsonResponse visit).
Proof.
  assert (CT_MATCH plainConfig = toLowerCase (js "text/html")) as H1
    by reflexivity.
  assert (CT_MATCH plainConfig ≠ []) as H2 by discriminate.
  assert (ciIncludes (contentType jsonResponse) (js "text/html") = false)
    as H3 by (vm_compute; reflexivity).
  split; [exact H1|]. split; [exact H2|]. split; [exact H3|].
  apply (content_type_filter plainConfig (js "text/html") pageBytes
           jsonResponse visit H1 H2). exact H3.
Defined.

Lemma required_header_presence_witness :
  INJECT_IF_HEADER requiredHeaderConfig = toLowerCase (js "X-Inject")
  ∧ INJECT_IF_HEADER requiredHeaderConfig ≠ []
  ∧ requiredHeaderMissing requiredHeaderConfig htmlResponse = true
  ∧ forwardedUntouched pageBytes htmlResponse
      (onProxyRes requiredHeaderConfig pageBytes htmlResponse visit).
Proof.
  assert (INJECT_IF_HEADER requiredHeaderConfig = toLowerCase (js "X-Inject"))
    as H1 by reflexivity.
  assert (INJECT_IF_HEADER requiredHeaderConfig ≠ []) as H2 by discriminate.
  assert (requiredHeaderMissing requiredHeaderConfig htmlResponse = true)
    as H3 by (vm_compute; reflexivity).
  split; [exact H1|]. split; [exact H2|]. split; [exact H3|].
  apply (required_header_presence requiredHeaderConfig (js "X-Inject")
           pageBytes htmlResponse visit H1 H2). exact H3.
Defined.

Lemma excluded_path_untouched_witness :
  (∃ rx, rx ∈ EXCLUDE_PATTERNS adminConfig ∧ test rx (url adminVisit) = true)
  ∧ forwardedUntouched pageBytes htmlResponse
      (handle adminConfig adminVisit pageBytes htmlResponse).
Proof.
  assert (∃ rx, rx ∈ EXCLUDE_PATTERNS adminConfig
                ∧ test rx (url adminVisit) = true) as H1.
  { exists adminPattern. split; [apply list_elem_of_here | reflexivity]. }
  split; [exact H1|].
  apply (excluded_path_untouched adminConfig ∅ adminVisit pageBytes
           htmlResponse H1).
Defined.

Lemma content_length_rewritten_witness :
  injectCalls (onProxyRes accentConfig pageBytes htmlResponse visit) = [page]
  ∧ changed (injectIntoHtml accentConfig page) = true
  ∧ headers (response (onProxyRes accentConfig pageBytes htmlResponse visit))
    = <[js "content-length" := js "47"]> (headers htmlResponse)
  ∧ length (out (injectIntoHtml accentConfig page)) = 46%nat.
Proof.
  assert (injectCalls (onProxyRes accentConfig pageBytes htmlResponse visit)
          = [page]) as H1 by (vm_compute; reflexivity).
  assert (changed (injectIntoHtml accentConfig page) = true) as H2
    by (vm_compute; reflexivity).
  split; [exact H1|]. split; [exact H2|].
  split; [|vm_compute; reflexivity].
  destruct (content_length_rewritten accentConfig pageBytes htmlResponse
              visit page H1) as (_ & Hchanged & _).
  destruct (Hchanged H2) as (_ & Hlength & _).
  rewrite Hlength. reflexivity.
Defined.

(** The variable INJECT_TARGET set to the empty string: the marker falls
    back to the default, and a page that holds it is rewritten. *)
Example empty_marker_variable :
  ∃ cfg,
    resolveConfig (<["INJECT_TARGET"%string := []]> ∅) = Some cfg
    ∧ INJECT_TARGET cfg = js "</head>"
    ∧ changed (injectIntoHtml cfg page) = true.
Proof.
  destruct (resolveConfig (<["INJECT_TARGET"%string := []]> ∅))
    as [cfg|] eqn:E; [|vm_compute in E; discriminate].
  exists cfg. split; [done|].
  vm_compute in E. injection E as <-. split; vm_compute; reflexivity.
Qed.

(** The scenario of the specification: the default configuration on a page
    with one head element. *)
Example default_scenario :
  ∃ cfg,
    resolveConfig ∅ = Some cfg
    ∧ sent (handle cfg visit (utf8_encode (js "<html><head></head><body>hi</body></html>"))
              htmlResponse)
      = StringBody (js "<html><head>" ++ DEFAULT_INJECT_HTML
                      ++ js "</head><body>hi</body></html>").
Proof.
  destruct (resolveConfig ∅) as [cfg|] eqn:E; [|vm_compute in E; discriminate].
  exists cfg. split; [done|].
  vm_compute in E. injection E as <-. vm_compute. reflexivity.
Qed.

(** The payload of [dollarConfig] set through INJECT_HTML, everything else
    left to the defaults: the page that reaches the client holds its own
    tail inside the script. *)
Example dollar_payload_from_env :
  ∃ cfg,
    resolveConfig (<["INJECT_HTML"%string := js "<script>a='$'</script>"]> ∅)
    = Some cfg
    ∧ INJECT_ONCE cfg = true
    ∧ sent (handle cfg visit pageBytes htmlResponse)
      = StringBody
          (js "<head><script>a='<body>hi</body></script></head><body>hi</body>").
Proof.
  destruct (resolveConfig
              (<["INJECT_HTML"%string := js "<script>a='$'</script>"]> ∅))
    as [cfg|] eqn:E; [|vm_compute in E; discriminate].
  exists cfg. split; [done|].
  vm_compute in E. injection E as <-. split; vm_compute; reflexivity.
Qed.

(** ** Further facts: occurrences *)

Lemma indexOf_startsWith (s m : jsstring) :
  startsWith s m = true → indexOf s m = Some 0%nat.
Proof.
  intros Hs. destruct s; [by destruct m|]. by rewrite indexOf_cons, Hs.
Qed.

Lemma indexOf_app_found (a m b : jsstring) :
  ∃ j, indexOf (a ++ m ++ b) m = Some j ∧ (j ≤ length a)%nat.
Proof.
  induction a as [|c a IH].
  - exists 0%nat. split; [|done]. apply indexOf_startsWith.
    apply startsWith_app. by exists b.
  - destruct IH as (j & Hj & Hle). simpl app. rewrite indexOf_cons.
    destruct (startsWith _ m).
    + exists 0%nat. split; [done | lia].
    + exists (S j). rewrite Hj. split; [done | simpl; lia].
Qed.

Lemma indexOf_first (s m : jsstring) (j i : nat) :
  indexOf s m = Some j → (i < j)%nat → startsWith (drop i s) m = false.
Proof.
  revert j i. induction s as [|c s IH]; intros j i.
  - destruct m; simpl; [by intros [= <-]; lia | done].
  - rewrite indexOf_cons. destruct (startsWith (c :: s) m) eqn:E.
    + intros [= <-]. lia.
    + destruct (indexOf s m) as [k|] eqn:Ek; [|done].
      intros [= <-] Hi. destruct i as [|i]; [done|].
      simpl. apply (IH k); [done | lia].
Qed.

Lemma occursAt_startsWith (s m : jsstring) (i : nat) :
  occursAt s m i ↔ (i ≤ length s)%nat ∧ startsWith (drop i s) m = true.
Proof.
  split.
  - intros (a & b & -> & <-). rewrite drop_app_length, length_app.
    split; [lia|]. apply startsWith_app. by exists b.
  - intros [Hi (b & Hb)%startsWith_app]. exists (take i s), b.
    split; [|rewrite length_take; lia].
    by rewrite <- Hb, take_drop.
Qed.

(** X1: the marker guard of the injector passes exactly when the body can
    be cut into some text, the marker, and some text. *)
Theorem includes_iff_cut (html marker : jsstring) :
  includes html marker = true ↔ ∃ a b, html = a ++ marker ++ b.
Proof.
  unfold includes. split.
  - destruct (indexOf html marker) as [j|] eqn:Ej; [|done].
    intros _. apply indexOf_Some in Ej. eauto.
  - intros (a & b & ->).
    by destruct (indexOf_app_found a marker b) as (j & -> & _).
Qed.

(** X2: replacing the first occurrence only, the injector leaves the text
    in front of the leftmost occurrence of the marker and the text behind
    it as they are, whatever the payload holds: the output is that text in
    front, something in place of the marker, and that text behind; and the
    marker occurs at no smaller index of the body. *)
Theorem first_only_frame (cfg : Config) (html : jsstring) :
  truthy (trim (INJECT_HTML cfg)) = true → INJECT_ONCE cfg = true →
  includes html (INJECT_TARGET cfg) = true →
  ∃ a b inserted,
    html = a ++ INJECT_TARGET cfg ++ b
    ∧ out (injectIntoHtml cfg html) = a ++ inserted ++ b
    ∧ ∀ i, (i < length a)%nat → ¬ occursAt html (INJECT_TARGET cfg) i.
Proof.
  intros Hp Ho Hi. unfold includes in Hi.
  destruct (indexOf html (INJECT_TARGET cfg)) as [j|] eqn:Ej; [|done].
  pose proof (indexOf_Some _ _ _ Ej) as Hcut.
  pose proof (indexOf_lt _ _ _ Ej) as Hlt.
  exists (take j html), (drop (j + length (INJECT_TARGET cfg)) html).
  eexists. split; [done|]. split.
  - rewrite (injectIntoHtml_found cfg html j Hp Ej), Ho.
    unfold replace. rewrite Ej. reflexivity.
  - intros i Hij [_ Hs]%occursAt_startsWith.
    rewrite length_take in Hij.
    rewrite (indexOf_first _ _ j i Ej) in Hs; [done | lia].
Qed.

Lemma first_only_frame_witness :
  truthy (trim (INJECT_HTML dollarConfig)) = true
  ∧ INJECT_ONCE dollarConfig = true
  ∧ includes pageTwice (INJECT_TARGET dollarConfig) = true
  ∧ ∃ a b inserted,
      pageTwice = a ++ INJECT_TARGET dollarConfig ++ b
      ∧ out (injectIntoHtml dollarConfig pageTwice) = a ++ inserted ++ b
      ∧ ∀ i, (i < length a)%nat → ¬ occursAt pageTwice (INJECT_TARGET dollarConfig) i.
Proof.
  split; [reflexivity|]. split; [reflexivity|]. split; [reflexivity|].
  apply (first_only_frame dollarConfig pageTwice); reflexivity.
Defined.

(** ** Further facts: trimming *)

Lemma trimStart_cut (s : jsstring) :
  ∃ w, s = w ++ trimStart s ∧ blank w.
Proof.
  induction s as [|c s (w & Hw & Hb)];
    [exists []; split; [done | constructor]|].
  simpl. destruct (isWhiteSpace c) eqn:E.
  - exists (c :: w). split; [simpl; by f_equal | by apply Forall_cons].
  - exists []. split; [done | constructor].
Qed.

Lemma trimStart_head (s : jsstring) (c : N) (t : jsstring) :
  trimStart s = c :: t → isWhiteSpace c = false.
Proof.
  induction s as [|d s IH]; [done|]. simpl.
  destruct (isWhiteSpace d) eqn:E; [done|]. by intros [= <- _].
Qed.

Lemma trimStart_nil (s : jsstring) : trimStart s = [] ↔ blank s.
Proof.
  split; [|apply trimStart_blank].
  intros Hn. destruct (trimStart_cut s) as (w & Hw & Hb).
  rewrite Hn, app_nil_r in Hw. by subst.
Qed.

Lemma trimStart_id (s : jsstring) :
  (∀ c t, s = c :: t → isWhiteSpace c = false) → trimStart s = s.
Proof.
  destruct s as [|c s]; [done|]. intros Hc. simpl.
  by rewrite (Hc c s eq_refl).
Qed.

Lemma blank_reverse (s : jsstring) : blank (reverse s) ↔ blank s.
Proof. unfold blank. by rewrite Forall_reverse. Qed.

Lemma trimEnd_cut (s : jsstring) :
  ∃ w, s = trimEnd s ++ w ∧ blank w.
Proof.
  unfold trimEnd. destruct (trimStart_cut (reverse s)) as (w & Hw & Hb).
  exists (reverse w). split; [|by apply blank_reverse].
  rewrite <- reverse_app, <- Hw. by rewrite reverse_involutive.
Qed.

Lemma trimEnd_last (s : jsstring) (c : N) (t : jsstring) :
  trimEnd s = t ++ [c] → isWhiteSpace c = false.
Proof.
  unfold trimEnd. intros Hs. apply (f_equal reverse) in Hs.
  rewrite reverse_involutive, reverse_app in Hs.
  by apply trimStart_head in Hs.
Qed.

Lemma trimEnd_nil (s : jsstring) : trimEnd s = [] ↔ blank s.
Proof.
  unfold trimEnd. rewrite <- blank_reverse, <- trimStart_nil. split.
  - intros Hr. apply (f_equal reverse) in Hr.
    by rewrite reverse_involutive in Hr.
  - by intros ->.
Qed.

Lemma trimEnd_id (s : jsstring) :
  (∀ c t, s = t ++ [c] → isWhiteSpace c = false) → trimEnd s = s.
Proof.
  intros Hc. unfold trimEnd. rewrite trimStart_id.
  - apply reverse_involutive.
  - intros c t Hr. apply (Hc c (reverse t)).
    apply (f_equal reverse) in Hr.
    by rewrite reverse_involutive, reverse_cons in Hr.
Qed.

Lemma trim_nil (s : jsstring) : trim s = [] ↔ blank s.
Proof.
  unfold trim. split.
  - intros Hb%trimEnd_nil. apply trimStart_nil.
    destruct (trimStart s) as [|c t] eqn:E; [done|].
    apply trimStart_head in E. apply Forall_cons in Hb as [Hc _]. congruence.
  - intros Hb%trimStart_nil. rewrite Hb. apply trimEnd_nil. constructor.
Qed.

Lemma trim_trimmed (s : jsstring) : trimmed (trim s).
Proof.
  unfold trim. split; [|apply trimEnd_last].
  intros c t Ht. destruct (trimEnd_cut (trimStart s)) as (w & Hw & Hb).
  rewrite Ht in Hw. apply (trimStart_head s c (t ++ w)). by rewrite Hw.
Qed.

Lemma trim_id (s : jsstring) : trimmed s → trim s = s.
Proof.
  intros [Hhead Hlast]. unfold trim.
  rewrite (trimStart_id s Hhead). by apply trimEnd_id.
Qed.

(** ** Further facts: split and join *)

Lemma join_cons (x : jsstring) (parts : list jsstring) (u : jsstring) :
  parts ≠ [] → join (x :: parts) u = x ++ u ++ join parts u.
Proof. by destruct parts. Qed.

Lemma split_loop_nonempty (f : nat) (s m : jsstring) : split_loop f s m ≠ [].
Proof. destruct f; simpl; [done|]. by destruct (indexOf s m). Qed.

Lemma join_split_loop (f : nat) (s m : jsstring) :
  join (split_loop f s m) m = s.
Proof.
  revert s. induction f as [|f IH]; intros s; [done|].
  rewrite split_loop_S. destruct (indexOf s m) as [j|] eqn:Ej; [|done].
  rewrite join_cons by apply split_loop_nonempty.
  rewrite IH. symmetry. by apply indexOf_Some.
Qed.

Lemma join_units (s : jsstring) : join ((λ c, [c]) <$> s) [] = s.
Proof.
  induction s as [|c s IH]; [done|].
  destruct s as [|d s]; [done|].
  change (join ([c] :: ((λ c, [c]) <$> (d :: s))) [] = c :: d :: s).
  rewrite join_cons by done. by rewrite IH.
Qed.

(** X3: splitting a body at the marker and joining the pieces with the
    marker gives the body back, for every body and every marker, the empty
    ones included: the pieces hold all the text that is not marker. *)
Theorem join_split (s m : jsstring) : join (split s m) m = s.
Proof.
  unfold split. destruct m as [|c m]; [apply join_units|].
  apply join_split_loop.
Qed.

Lemma join_length (parts : list jsstring) (u m : jsstring) :
  (length (join parts u) + (length parts - 1) * length m
   = length (join parts m) + (length parts - 1) * length u)%nat.
Proof.
  induction parts as [|x parts IH]; [done|].
  destruct parts as [|y parts]; [simpl; lia|].
  rewrite !(join_cons x) by done. rewrite !length_app.
  simpl length in *. lia.
Qed.

Lemma split_found_pieces (s m : jsstring) (j : nat) :
  m ≠ [] → indexOf s m = Some j → (2 ≤ length (split s m))%nat.
Proof.
  intros Hm Hj. pose proof (indexOf_lt _ _ _ Hj) as Hlt.
  unfold split. destruct m as [|c m]; [done|]. simpl in Hlt.
  destruct (length s) as [|f] eqn:El; [lia|].
  rewrite split_loop_S, Hj. simpl.
  pose proof (split_loop_nonempty f (drop (j + S (length m)) s) (c :: m)).
  destruct (split_loop f _ _); [done | simpl; lia].
Qed.

Lemma payload_length (cfg : Config) :
  length (payload cfg)
  = (length (INJECT_HTML cfg) + length (INJECT_TARGET cfg))%nat.
Proof.
  unfold payload. destruct (bool_decide _); rewrite length_app; lia.
Qed.

Lemma not_blank_nonempty (s : jsstring) :
  truthy (trim s) = true → (0 < length s)%nat ∧ ¬ blank s.
Proof.
  intros Ht. split.
  - destruct s; [done | simpl; lia].
  - intros Hb%trim_nil. by rewrite Hb in Ht.
Qed.

Lemma not_blank_truthy (s : jsstring) : ¬ blank s → truthy (trim s) = true.
Proof.
  intros Hb. destruct (trim s) eqn:E; [|done]. by apply trim_nil in E.
Qed.

Lemma join_split_length (s m u : jsstring) :
  (length (join (split s m) u) + occurrences s m * length m
   = length s + occurrences s m * length u)%nat.
Proof.
  unfold occurrences.
  pose proof (join_length (split s m) u m) as Hlen.
  assert (join (split s m) m = s) as Hback.
  { unfold split. destruct m; [apply join_units | apply join_split_loop]. }
  rewrite Hback in Hlen. lia.
Qed.

(** X4: replacing all occurrences only adds text: the output is longer
    than the body by the length of the payload for each occurrence that
    split finds, neither more nor less. *)
Theorem inject_all_length (cfg : Config) (html : jsstring) :
  truthy (trim (INJECT_HTML cfg)) = true → INJECT_ONCE cfg = false →
  includes html (INJECT_TARGET cfg) = true →
  length (out (injectIntoHtml cfg html))
  = (length html
     + occurrences html (INJECT_TARGET cfg) * length (INJECT_HTML cfg))%nat.
Proof.
  intros Hp Ho Hi. unfold includes in Hi.
  destruct (indexOf html (INJECT_TARGET cfg)) as [j|] eqn:Ej; [|done].
  rewrite (injectIntoHtml_found cfg html j Hp Ej), Ho.
  pose proof (join_split_length html (INJECT_TARGET cfg) (payload cfg))
    as Hlen.
  rewrite payload_length in Hlen. lia.
Qed.

Lemma inject_all_length_witness :
  truthy (trim (INJECT_HTML (with_once false dollarConfig))) = true
  ∧ INJECT_ONCE (with_once false dollarConfig) = false
  ∧ includes pageTwice (INJECT_TARGET (with_once false dollarConfig)) = true
  ∧ length (out (injectIntoHtml (with_once false dollarConfig) pageTwice))
    = (length pageTwice + 2 * 22)%nat.
Proof.
  split; [reflexivity|]. split; [reflexivity|]. split; [reflexivity|].
  rewrite (inject_all_length (with_once false dollarConfig) pageTwice);
    reflexivity.
Defined.

(** The injector with one of its two guards firing, and its flag in the
    other case. *)
Lemma injectIntoHtml_skipped (cfg : Config) (html : jsstring) :
  truthy (trim (INJECT_HTML cfg)) = false
  ∨ includes html (INJECT_TARGET cfg) = false →
  injectIntoHtml cfg html = {| out := html; changed := false |}.
Proof.
  unfold injectIntoHtml. intros [-> | ->]; [done|].
  by destruct (negb (truthy _)).
Qed.

Lemma changed_true_differs (cfg : Config) (html : jsstring) :
  out (injectIntoHtml cfg html) ≠ html →
  changed (injectIntoHtml cfg html) = true.
Proof.
  unfold injectIntoHtml.
  destruct (negb (truthy _)); [done|].
  destruct (negb (includes _ _)); [done|].
  destruct (INJECT_ONCE cfg); simpl; by rewrite strict_neq_true.
Qed.

(** X5: replacing all occurrences of a marker that is not empty, the
    injector reports a change exactly when the payload is not blank and the
    marker occurs in the body: a body that holds the marker never comes
    back unchanged. *)
Theorem inject_all_changed_iff (cfg : Config) (html : jsstring) :
  INJECT_ONCE cfg = false → INJECT_TARGET cfg ≠ [] →
  (changed (injectIntoHtml cfg html) = true
   ↔ ¬ blank (INJECT_HTML cfg) ∧ includes html (INJECT_TARGET cfg) = true).
Proof.
  intros Ho Hm. split.
  - intros Hc. split.
    + intros Hb%trim_nil.
      rewrite injectIntoHtml_skipped in Hc; [done|]. left. by rewrite Hb.
    + destruct (includes html (INJECT_TARGET cfg)) eqn:E; [done|].
      by rewrite injectIntoHtml_skipped in Hc by auto.
  - intros [Hb Hi]. pose proof (not_blank_truthy _ Hb) as Hp.
    destruct (not_blank_nonempty _ Hp) as [Hlen _].
    apply changed_true_differs. intros Heq. unfold includes in Hi.
    destruct (indexOf html (INJECT_TARGET cfg)) as [j|] eqn:Ej; [|done].
    rewrite (injectIntoHtml_found cfg html j Hp Ej), Ho in Heq.
    pose proof (join_split_length html (INJECT_TARGET cfg) (payload cfg))
      as Hl.
    rewrite Heq, payload_length in Hl.
    pose proof (split_found_pieces _ _ _ Hm Ej). unfold occurrences in Hl.
    nia.
Qed.

Lemma inject_all_changed_iff_witness :
  INJECT_ONCE (with_once false plainConfig) = false
  ∧ INJECT_TARGET (with_once false plainConfig) ≠ []
  ∧ (changed (injectIntoHtml (with_once false plainConfig) page) = true
     ↔ ¬ blank (INJECT_HTML (with_once false plainConfig))
       ∧ includes page (INJECT_TARGET (with_once false plainConfig)) = true).
Proof.
  split; [reflexivity|]. split; [discriminate|].
  apply (inject_all_changed_iff (with_once false plainConfig) page);
    [reflexivity | discriminate].
Defined.

(** ** Further facts: the replacement template *)

Lemma GetSubstitution_other (matched str : jsstring) (position : nat)
    (c : N) (rest : jsstring) :
  c ≠ DOLLAR →
  GetSubstitution matched str position (c :: rest)
  = c :: GetSubstitution matched str position rest.
Proof. intros Hc. simpl. by rewrite (proj2 (N.eqb_neq c DOLLAR) Hc). Qed.

Lemma GetSubstitution_dollars (matched str : jsstring) (position : nat)
    (rest : jsstring) :
  GetSubstitution matched str position (DOLLAR :: DOLLAR :: rest)
  = DOLLAR :: GetSubstitution matched str position rest.
Proof. reflexivity. Qed.

Lemma GetSubstitution_app_dollarFree (matched str : jsstring) (position : nat)
    (u v : jsstring) :
  dollarFree u →
  GetSubstitution matched str position (u ++ v)
  = u ++ GetSubstitution matched str position v.
Proof.
  unfold dollarFree. induction u as [|c u IH]; [done|].
  intros [Hc Hu]%not_elem_of_cons. simpl app.
  rewrite GetSubstitution_other by done. by rewrite IH.
Qed.

Lemma GetSubstitution_escape (matched str : jsstring) (position : nat)
    (t v : jsstring) :
  GetSubstitution matched str position (escapeDollars t ++ v)
  = t ++ GetSubstitution matched str position v.
Proof.
  induction t as [|c t IH]; [done|]. simpl escapeDollars.
  destruct (c =? DOLLAR) eqn:E.
  - apply N.eqb_eq in E as ->. simpl app.
    by rewrite GetSubstitution_dollars, IH.
  - apply N.eqb_neq in E. simpl app.
    rewrite GetSubstitution_other by done. by rewrite IH.
Qed.

(** X6: replacing the first occurrence with a payload and a marker that
    hold no dollar sign, the injector reports a change exactly when the
    payload is not blank and the marker occurs in the body, and the output
    is then longer than the body by the length of the payload. *)
Theorem inject_once_changed_iff (cfg : Config) (html : jsstring) :
  INJECT_ONCE cfg = true → dollarFree (payload cfg) →
  (changed (injectIntoHtml cfg html) = true
   ↔ ¬ blank (INJECT_HTML cfg) ∧ includes html (INJECT_TARGET cfg) = true)
  ∧ (changed (injectIntoHtml cfg html) = true →
     length (out (injectIntoHtml cfg html))
     = (length html + length (INJECT_HTML cfg))%nat).
Proof.
  intros Ho Hd.
  assert (¬ blank (INJECT_HTML cfg) →
          includes html (INJECT_TARGET cfg) = true →
          length (out (injectIntoHtml cfg html))
          = (length html + length (INJECT_HTML cfg))%nat) as Hlen.
  { intros Hb Hi. pose proof (not_blank_truthy _ Hb) as Hp.
    unfold includes in Hi.
    destruct (indexOf html (INJECT_TARGET cfg)) as [j|] eqn:Ej; [|done].
    rewrite (inject_once_literal cfg html j Hp Ho Ej Hd).
    pose proof (indexOf_Some _ _ _ Ej) as Hcut.
    apply (f_equal length) in Hcut.
    rewrite !length_app in *. rewrite payload_length. lia. }
  assert (changed (injectIntoHtml cfg html) = true →
          ¬ blank (INJECT_HTML cfg)
          ∧ includes html (INJECT_TARGET cfg) = true) as Hdir.
  { intros Hc. split.
    - intros Hb%trim_nil.
      rewrite injectIntoHtml_skipped in Hc; [done|]. left. by rewrite Hb.
    - destruct (includes html (INJECT_TARGET cfg)) eqn:E; [done|].
      by rewrite injectIntoHtml_skipped in Hc by auto. }
  split; [split; [done|] | intros Hc; by apply Hlen; apply Hdir].
  intros [Hb Hi]. apply changed_true_differs. intros Heq.
  specialize (Hlen Hb Hi). rewrite Heq in Hlen.
  destruct (not_blank_nonempty _ (not_blank_truthy _ Hb)). lia.
Qed.

Lemma inject_once_changed_iff_witness :
  INJECT_ONCE plainConfig = true
  ∧ dollarFree (payload plainConfig)
  ∧ changed (injectIntoHtml plainConfig page) = true
  ∧ length (out (injectIntoHtml plainConfig page)) = (length page + 17)%nat.
Proof.
  assert (dollarFree (payload plainConfig)) as Hd
    by (unfold dollarFree; apply (bool_decide_eq_false_1 (DOLLAR ∈ _));
        reflexivity).
  split; [reflexivity|]. split; [exact Hd|]. split; [reflexivity|].
  destruct (inject_once_changed_iff plainConfig page eq_refl Hd) as [_ Hlen].
  rewrite Hlen; reflexivity.
Defined.

(** X7: a way round the dollar patterns.  When the marker holds no dollar
    sign and the payload is written with every dollar sign doubled,
    replacing the first occurrence puts in the insertion unit of the payload
    as meant, with single dollar signs. *)
Theorem inject_once_escaped (cfg : Config) (meant html : jsstring) (j : nat) :
  INJECT_ONCE cfg = true → INJECT_HTML cfg = escapeDollars meant →
  dollarFree (INJECT_TARGET cfg) →
  truthy (trim (INJECT_HTML cfg)) = true →
  indexOf html (INJECT_TARGET cfg) = Some j →
  out (injectIntoHtml cfg html)
  = take j html ++ payload (with_html meant cfg)
      ++ drop (j + length (INJECT_TARGET cfg)) html.
Proof.
  intros Ho Hh Hd Hp Hj.
  rewrite (injectIntoHtml_found cfg html j Hp Hj), Ho.
  unfold replace. rewrite Hj. do 2 f_equal.
  unfold payload. simpl. rewrite Hh. destruct (bool_decide _).
  - rewrite GetSubstitution_app_dollarFree by done.
    rewrite <- (app_nil_r (escapeDollars meant)).
    by rewrite GetSubstitution_escape, app_nil_r.
  - rewrite GetSubstitution_escape.
    rewrite <- (app_nil_r (INJECT_TARGET cfg)) at 2.
    by rewrite GetSubstitution_app_dollarFree, app_nil_r.
Qed.

Lemma inject_once_escaped_witness :
  INJECT_ONCE escapedConfig = true
  ∧ INJECT_HTML escapedConfig = escapeDollars (js "<script>a='$'</script>")
  ∧ dollarFree (INJECT_TARGET escapedConfig)
  ∧ truthy (trim (INJECT_HTML escapedConfig)) = true
  ∧ indexOf page (INJECT_TARGET escapedConfig) = Some 6%nat
  ∧ out (injectIntoHtml escapedConfig page)
    = js "<head><script>a='$'</script></head><body>hi</body>".
Proof.
  assert (dollarFree (INJECT_TARGET escapedConfig)) as Hd
    by (unfold dollarFree; apply (bool_decide_eq_false_1 (DOLLAR ∈ _));
        reflexivity).
  split; [reflexivity|]. split; [reflexivity|]. split; [exact Hd|].
  split; [reflexivity|]. split; [reflexivity|].
  rewrite (inject_once_escaped escapedConfig (js "<script>a='$'</script>")
             page 6 eq_refl eq_refl Hd eq_refl eq_refl).
  reflexivity.
Defined.

(** ** Further facts: what the output still holds *)

Lemma includes_cut (a m b : jsstring) : includes (a ++ m ++ b) m = true.
Proof.
  unfold includes. by destruct (indexOf_app_found a m b) as (j & -> & _).
Qed.

Lemma payload_cut (cfg : Config) :
  (∃ a b, payload cfg = a ++ INJECT_TARGET cfg ++ b)
  ∧ (∃ a b, payload cfg = a ++ INJECT_HTML cfg ++ b).
Proof.
  unfold payload. destruct (bool_decide _); split.
  - exists [], (INJECT_HTML cfg). done.
  - exists (INJECT_TARGET cfg), []. by rewrite app_nil_r.
  - exists (INJECT_HTML cfg), []. by rewrite app_nil_r.
  - exists [], (INJECT_TARGET cfg). done.
Qed.

Lemma includes_within (s x a b m : jsstring) (pre post : jsstring) :
  x = a ++ m ++ b → s = pre ++ x ++ post → includes s m = true.
Proof.
  intros -> ->.
  replace (pre ++ (a ++ m ++ b) ++ post) with ((pre ++ a) ++ m ++ (b ++ post))
    by (by rewrite <- !app_assoc).
  apply includes_cut.
Qed.

Lemma join_split_found (s m u : jsstring) (j : nat) :
  m ≠ [] → indexOf s m = Some j →
  ∃ post, join (split s m) u = take j s ++ u ++ post.
Proof.
  intros Hm Hj. pose proof (indexOf_lt _ _ _ Hj) as Hlt.
  unfold split. destruct m as [|c m]; [done|]. simpl in Hlt.
  destruct (length s) as [|f] eqn:El; [lia|].
  rewrite split_loop_S, Hj.
  rewrite join_cons by apply split_loop_nonempty. eauto.
Qed.

(** X8: when the injector has run on a body that holds the marker, with a
    marker that is not empty and a payload that is not blank, and either
    all occurrences are replaced or the insertion unit holds no dollar
    sign, then the output holds the payload and still holds the marker. *)
Theorem output_holds_payload_and_marker (cfg : Config) (html : jsstring) :
  truthy (trim (INJECT_HTML cfg)) = true → INJECT_TARGET cfg ≠ [] →
  includes html (INJECT_TARGET cfg) = true →
  INJECT_ONCE cfg = false ∨ dollarFree (payload cfg) →
  includes (out (injectIntoHtml cfg html)) (INJECT_HTML cfg) = true
  ∧ includes (out (injectIntoHtml cfg html)) (INJECT_TARGET cfg) = true.
Proof.
  intros Hp Hne Hi Hmode. unfold includes in Hi.
  destruct (indexOf html (INJECT_TARGET cfg)) as [j|] eqn:Ej; [|done].
  destruct (payload_cut cfg) as [(a1 & b1 & Hm) (a2 & b2 & Hh)].
  assert (∃ pre post,
            out (injectIntoHtml cfg html) = pre ++ payload cfg ++ post)
    as (pre & post & Hout).
  { destruct (INJECT_ONCE cfg) eqn:Ho.
    - destruct Hmode as [|Hd]; [done|].
      rewrite (inject_once_literal cfg html j Hp Ho Ej Hd). eauto.
    - rewrite (injectIntoHtml_found cfg html j Hp Ej), Ho.
      destruct (join_split_found html _ (payload cfg) j Hne Ej) as [post ->].
      eauto. }
  split; [by apply (includes_within _ _ _ _ _ _ _ Hh Hout)|].
  by apply (includes_within _ _ _ _ _ _ _ Hm Hout).
Qed.

Lemma output_holds_payload_and_marker_witness :
  truthy (trim (INJECT_HTML (with_once false dollarConfig))) = true
  ∧ INJECT_TARGET (with_once false dollarConfig) ≠ []
  ∧ includes pageTwice (INJECT_TARGET (with_once false dollarConfig)) = true
  ∧ includes (out (injectIntoHtml (with_once false dollarConfig) pageTwice))
      (INJECT_HTML (with_once false dollarConfig)) = true
  ∧ includes (out (injectIntoHtml (with_once false dollarConfig) pageTwice))
      (INJECT_TARGET (with_once false dollarConfig)) = true.
Proof.
  split; [reflexivity|]. split; [discriminate|]. split; [reflexivity|].
  apply (output_holds_payload_and_marker (with_once false dollarConfig)
           pageTwice); [reflexivity | discriminate | reflexivity | by left].
Defined.

(** ** Further facts: the content length *)

Lemma byteLength_upper (n : nat) (s : jsstring) :
  (length s ≤ n)%nat → (byteLength s ≤ 3 * length s)%nat.
Proof.
  unfold byteLength. revert s. induction n as [|n IH]; intros s Hn.
  - destruct s; [done | simpl in Hn; lia].
  - destruct s as [|c s']; [done|].
    simpl in Hn. pose proof (IH s' ltac:(lia)) as Hs'.
    rewrite utf8_encode_cons. destruct (c <? 128); [simpl; lia|].
    destruct (c <? 2048); [simpl; lia|].
    destruct (isLeadSurrogate c); [|destruct (isTrailSurrogate c); simpl; lia].
    destruct s' as [|d s'']; [simpl; lia|].
    destruct (isTrailSurrogate d); [|simpl in *; lia].
    simpl in Hn. pose proof (IH s'' ltac:(lia)). simpl. lia.
Qed.

Lemma utf8_encode_ascii (s : jsstring) :
  Forall (λ c, c < 128) s → utf8_encode s = s.
Proof.
  induction 1 as [|c s Hc _ IH]; [done|].
  rewrite utf8_encode_cons, (proj2 (N.ltb_lt c 128) Hc). by rewrite IH.
Qed.

(** X9: the length that goes into the content-length header lies between
    the number of code units of the body and three times that number, and
    for a body of ASCII text the encoding is the text itself, so the two
    counts are the same. *)
Theorem byteLength_range (s : jsstring) :
  (length s ≤ byteLength s ≤ 3 * length s)%nat
  ∧ (Forall (λ c, c < 128) s → utf8_encode s = s ∧ byteLength s = length s).
Proof.
  split; [split|].
  - apply byteLength_ge_length.
  - by apply (byteLength_upper (length s)).
  - intros Ha. unfold byteLength. by rewrite utf8_encode_ascii.
Qed.

Lemma byteLength_range_witness :
  Forall (λ c, c < 128) page
  ∧ utf8_encode page = page ∧ byteLength page = length page.
Proof.
  assert (Forall (λ c, c < 128) page) as Ha by (by repeat constructor).
  split; [exact Ha|].
  destruct (byteLength_range page) as [_ Hascii]. exact (Hascii Ha).
Defined.

(** ** Further facts: start-up and the proxy callbacks *)

Lemma changed_out_differs (cfg : Config) (html : jsstring) :
  changed (injectIntoHtml cfg html) = true →
  out (injectIntoHtml cfg html) ≠ html.
Proof.
  unfold injectIntoHtml.
  destruct (negb (truthy _)); [done|].
  destruct (negb (includes _ _)); [done|].
  destruct (INJECT_ONCE cfg); simpl; by rewrite strict_neq_true.
Qed.

Lemma includes_nil_l (m : jsstring) : m ≠ [] → includes [] m = false.
Proof. by destruct m. Qed.

Section MoreServerFacts.
Context `{JsRuntime}.

Lemma toLowerCase_nil : toLowerCase [] = [].
Proof. by rewrite toLowerCase_ascii. Qed.

(** X10: the interceptor touches no header but content-length.  When it
    hands a buffer back, it is the buffer it was given and the response is
    as it came; when it hands a string back, content-length is the UTF-8
    length of that very string, and the string differs from the decoded
    buffer. *)
Theorem onProxyRes_frame (cfg : Config) (buffer : list byte)
    (proxyRes : ProxyRes) (req : Request) :
  delete (js "content-length")
    (headers (response (onProxyRes cfg buffer proxyRes req)))
  = delete (js "content-length") (headers proxyRes)
  ∧ match sent (onProxyRes cfg buffer proxyRes req) with
    | BufferBody b =>
      b = buffer ∧ response (onProxyRes cfg buffer proxyRes req) = proxyRes
    | StringBody s =>
      headers (response (onProxyRes cfg buffer proxyRes req))
        !! js "content-length"
      = Some (Number_toString (byteLength s))
      ∧ s ≠ Buffer_toString buffer
    end.
Proof.
  unfold onProxyRes.
  destruct (bool_decide _); [done|].
  destruct (contentTypeRejected _ _); [done|].
  destruct (requiredHeaderMissing _ _); [done|].
  destruct (changed _) eqn:E; simpl; [|done].
  split; [apply delete_insert_eq|]. split; [apply lookup_insert_eq|].
  by apply changed_out_differs.
Qed.

(** X11: with a content-type filter that is not empty, a response that has
    no content-type header, or an empty one, is handed back as it came. *)
Theorem no_content_type_untouched (cfg : Config) (buffer : list byte)
    (proxyRes : ProxyRes) (req : Request) :
  CT_MATCH cfg ≠ [] → contentType proxyRes = [] →
  forwardedUntouched buffer proxyRes (onProxyRes cfg buffer proxyRes req).
Proof.
  intros Hne Hct.
  assert (contentTypeRejected cfg proxyRes = true) as Hr.
  { unfold contentTypeRejected. unfold contentType in Hct.
    rewrite Hct, toLowerCase_nil, includes_nil_l by done.
    by destruct (CT_MATCH cfg). }
  rewrite onProxyRes_guarded by auto. apply passThrough_untouched.
Qed.

(** X12: with content-type as the required header, as the comment on
    INJECT_IF_HEADER suggests, and a content-type filter that is not empty,
    the required-header guard lets through every response that the
    content-type guard lets through. *)
Theorem content_type_required_redundant (cfg : Config) (proxyRes : ProxyRes) :
  INJECT_IF_HEADER cfg = toLowerCase (js "content-type") →
  CT_MATCH cfg ≠ [] →
  contentTypeRejected cfg proxyRes = false →
  requiredHeaderMissing cfg proxyRes = false.
Proof.
  intros Hn Hne Hc.
  assert (toLowerCase (js "content-type") = js "content-type") as Hl
    by (rewrite toLowerCase_ascii; [done | by repeat constructor]).
  assert (is_Some (headers proxyRes !! js "content-type")) as Hin.
  { destruct (headers proxyRes !! js "content-type") as [v|] eqn:E; [done|].
    unfold contentTypeRejected in Hc. rewrite E in Hc. simpl in Hc.
    rewrite toLowerCase_nil, includes_nil_l in Hc by done.
    by destruct (CT_MATCH cfg). }
  unfold requiredHeaderMissing. rewrite Hn, Hl.
  apply andb_false_iff. right. apply negb_false_iff.
  apply Array_includes_lower_keys. exists (js "content-type").
  split; [by apply elem_of_dom | done].
Qed.

Lemma js_or_empty_unset (env : gmap string jsstring) (k k' : string)
    (d : jsstring) :
  js_or (<[k := []]> env !! k') d = js_or (delete k env !! k') d.
Proof.
  destruct (decide (k = k')) as [->|Hk].
  - by rewrite lookup_insert_eq, lookup_delete_eq.
  - by rewrite lookup_insert_ne, lookup_delete_ne.
Qed.

(** X13: a variable set to the empty string counts for nothing: the
    start-up gives what it gives with the variable unset, whichever
    variable it is. *)
Theorem empty_variable_is_unset (env : gmap string jsstring) (k : string) :
  resolveConfig (<[k := []]> env) = resolveConfig (delete k env).
Proof.
  unfold resolveConfig. by rewrite !js_or_empty_unset.
Qed.

(** Resolving the constants fails exactly when one of the pattern sources
    does not compile; otherwise the exclusion patterns are the compiled
    sources, one for one and in order. *)
Lemma resolveConfig_patterns (env : gmap string jsstring) :
  (resolveConfig env = None
   ↔ Exists (λ source, RegExp_new source = None) (excludeSources env))
  ∧ ∀ cfg, resolveConfig env = Some cfg →
      Forall2 (λ source rx, RegExp_new source = Some rx)
        (excludeSources env) (EXCLUDE_PATTERNS cfg).
Proof.
  unfold resolveConfig. fold (excludeSources env).
  destruct (mapM RegExp_new (excludeSources env)) as [patterns|] eqn:E;
    simpl; (split; [split|]); try done.
  - intros Hex%mapM_None. congruence.
  - intros cfg [= <-]. by apply mapM_Some.
  - intros _. by apply mapM_None.
Qed.

(** X15: two requests that get the same answer from the exclusion matcher
    are handled alike: of the request, nothing but that answer reaches the
    interceptor, and a flag already on the request is overwritten. *)
Theorem handle_by_verdict (cfg : Config) (req1 req2 : Request)
    (buffer : list byte) (proxyRes : ProxyRes) :
  isExcludedPath cfg (url req1) = isExcludedPath cfg (url req2) →
  handle cfg req1 buffer proxyRes = handle cfg req2 buffer proxyRes.
Proof. intros Hv. unfold handle, onProxyReq, onProxyRes. simpl. by rewrite Hv. Qed.

Lemma js_or_unset (env : gmap string jsstring) (k : string) (d : jsstring) :
  unset env k → js_or (env !! k) d = d.
Proof. by intros [-> | ->]. Qed.

(** X17: a variable that is not set, or set to the empty string, resolves
    to the default its comment gives, on every runtime: the shipped script
    tag, the marker </head>, placement before, first occurrence only, the
    content-type filter text/html, no required header.  So neither the
    payload nor the content-type filter is switched off by an empty
    value. *)
Theorem resolved_defaults (env : gmap string jsstring) (cfg : Config) :
  resolveConfig env = Some cfg →
  (unset env "INJECT_HTML" → INJECT_HTML cfg = DEFAULT_INJECT_HTML)
  ∧ (unset env "INJECT_TARGET" → INJECT_TARGET cfg = js "</head>")
  ∧ (unset env "INJECT_MODE" → INJECT_MODE cfg = js "before")
  ∧ (unset env "INJECT_ONCE" → INJECT_ONCE cfg = true)
  ∧ (unset env "INJECT_CT_MATCH" → CT_MATCH cfg = js "text/html")
  ∧ (unset env "INJECT_IF_HEADER" → INJECT_IF_HEADER cfg = []).
Proof.
  unfold resolveConfig. destruct (mapM _ _); simpl; [|done].
  intros [= <-]. simpl.
  repeat split; intros Hu; rewrite (js_or_unset _ _ _ Hu);
    rewrite ?toLowerCase_ascii by (by repeat constructor); done.
Qed.

End MoreServerFacts.

(** X16: every pattern source handed to the RegExp constructor is a piece
    of INJECT_EXCLUDE_PATHS between commas, trimmed: it is not empty and
    has no white space at either end. *)
Theorem excludeSources_clean (env : gmap string jsstring) :
  Forall (λ source, source ≠ [] ∧ trimmed source
                    ∧ ∃ piece, piece ∈ split (js_or (env !! "INJECT_EXCLUDE_PATHS"%string)
                                                (js "^/wp-admin,^/wp-json,^/xmlrpc.php"))
                                             (js ",")
                               ∧ source = trim piece)
    (excludeSources env).
Proof.
  apply Forall_forall. intros source Hin. unfold excludeSources in Hin.
  apply list_elem_of_In, filter_In in Hin as [Hin Ht].
  apply list_elem_of_In, list_elem_of_fmap in Hin as (piece & -> & Hpiece).
  split; [by destruct (trim piece)|]. split; [apply trim_trimmed|].
  by exists piece.
Qed.

Lemma includes_sub (s pre x post m : jsstring) :
  s = pre ++ x ++ post → includes x m = true → includes s m = true.
Proof.
  intros -> Hi. unfold includes in Hi.
  destruct (indexOf x m) as [j|] eqn:Ej; [|done].
  apply indexOf_Some in Ej. by apply (includes_within _ _ _ _ _ _ _ Ej eq_refl).
Qed.

Lemma take_first_free (s m : jsstring) (j : nat) :
  m ≠ [] → indexOf s m = Some j → includes (take j s) m = false.
Proof.
  intros Hm Hj. destruct (includes (take j s) m) eqn:E; [|done].
  unfold includes in E. destruct (indexOf (take j s) m) as [i|] eqn:Ei; [|done].
  pose proof (indexOf_lt _ _ _ Ei) as Hlt. rewrite length_take in Hlt.
  assert (0 < length m)%nat by (destruct m; [done | simpl; lia]).
  apply indexOf_Some in Ei.
  assert (occursAt s m i) as Hocc.
  { exists (take i (take j s)), (drop (i + length m) (take j s) ++ drop j s).
    split; [|rewrite !length_take; lia].
    rewrite <- (take_drop j s) at 1. rewrite Ei at 1.
    by rewrite <- !app_assoc. }
  apply occursAt_startsWith in Hocc as [_ Hs].
  rewrite (indexOf_first _ _ j i Hj) in Hs; [done | lia].
Qed.

Lemma split_loop_free (f : nat) (s m : jsstring) :
  m ≠ [] → (length s ≤ f)%nat →
  Forall (λ piece, includes piece m = false) (split_loop f s m).
Proof.
  intros Hm. revert s. induction f as [|f IH]; intros s Hf.
  - destruct s; [|simpl in Hf; lia]. constructor; [|constructor].
    by apply includes_nil_l.
  - rewrite split_loop_S. destruct (indexOf s m) as [j|] eqn:Ej.
    + constructor; [by apply take_first_free|].
      apply IH. pose proof (indexOf_lt _ _ _ Ej).
      assert (0 < length m)%nat by (destruct m; [done | simpl; lia]).
      rewrite length_drop. lia.
    + constructor; [|constructor]. unfold includes. by rewrite Ej.
Qed.

Lemma trim_sub (s : jsstring) : ∃ pre post, s = pre ++ trim s ++ post.
Proof.
  destruct (trimStart_cut s) as (w & Hw & _).
  destruct (trimEnd_cut (trimStart s)) as (w' & Hw' & _).
  exists w, w'. unfold trim. by rewrite <- Hw'.
Qed.

(** X18: no pattern source holds a comma: INJECT_EXCLUDE_PATHS is cut at
    every comma before anything is compiled, so a pattern with a comma in
    it reaches the RegExp constructor in pieces. *)
Theorem excludeSources_no_comma (env : gmap string jsstring) :
  Forall (λ source, includes source (js ",") = false) (excludeSources env).
Proof.
  apply Forall_forall. intros source Hin. unfold excludeSources in Hin.
  apply list_elem_of_In, filter_In in Hin as [Hin _].
  apply list_elem_of_In, list_elem_of_fmap in Hin as (piece & -> & Hpiece).
  set (raw := js_or _ _) in Hpiece.
  change (js ",") with [44] in *. unfold split in Hpiece.
  pose proof (split_loop_free (length raw) raw [44] ltac:(done)
                (Nat.le_refl _)) as Hfree.
  rewrite Forall_forall in Hfree. specialize (Hfree piece Hpiece).
  destruct (includes (trim piece) [44]) eqn:E; [|done].
  destruct (trim_sub piece) as (pre & post & Hcut).
  by rewrite (includes_sub _ _ _ _ _ Hcut E) in Hfree.
Qed.

(** ** The further theorems at work on the example runtime *)

Lemma no_content_type_untouched_witness :
  CT_MATCH plainConfig ≠ [] ∧ contentType bareResponse = []
  ∧ forwardedUntouched pageBytes bareResponse
      (onProxyRes plainConfig pageBytes bareResponse visit).
Proof.
  assert (CT_MATCH plainConfig ≠ []) as H1 by discriminate.
  assert (contentType bareResponse = []) as H2 by reflexivity.
  split; [exact H1|]. split; [exact H2|].
  apply (no_content_type_untouched plainConfig pageBytes bareResponse visit
           H1 H2).
Defined.

Lemma content_type_required_redundant_witness :
  INJECT_IF_HEADER contentTypeRequiredConfig = toLowerCase (js "content-type")
  ∧ CT_MATCH contentTypeRequiredConfig ≠ []
  ∧ contentTypeRejected contentTypeRequiredConfig htmlResponse = false
  ∧ requiredHeaderMissing contentTypeRequiredConfig htmlResponse = false.
Proof.
  assert (INJECT_IF_HEADER contentTypeRequiredConfig
          = toLowerCase (js "content-type")) as H1 by reflexivity.
  assert (CT_MATCH contentTypeRequiredConfig ≠ []) as H2 by discriminate.
  assert (contentTypeRejected contentTypeRequiredConfig htmlResponse = false)
    as H3 by (vm_compute; reflexivity).
  split; [exact H1|]. split; [exact H2|]. split; [exact H3|].
  apply (content_type_required_redundant contentTypeRequiredConfig
           htmlResponse H1 H2 H3).
Defined.

Lemma handle_by_verdict_witness :
  isExcludedPath adminConfig (url adminVisit)
  = isExcludedPath adminConfig (url adminQuery)
  ∧ handle adminConfig adminVisit pageBytes htmlResponse
    = handle adminConfig adminQuery pageBytes htmlResponse.
Proof.
  assert (isExcludedPath adminConfig (url adminVisit)
          = isExcludedPath adminConfig (url adminQuery)) as H1 by reflexivity.
  split; [exact H1|].
  apply (handle_by_verdict adminConfig adminVisit adminQuery pageBytes
           htmlResponse H1).
Defined.

Lemma resolved_defaults_witness :
  ∃ cfg,
    resolveConfig ∅ = Some cfg
    ∧ unset ∅ "INJECT_CT_MATCH" ∧ CT_MATCH cfg = js "text/html"
    ∧ unset ∅ "INJECT_ONCE" ∧ INJECT_ONCE cfg = true.
Proof.
  destruct (resolveConfig ∅) as [cfg|] eqn:E; [|vm_compute in E; discriminate].
  assert (∀ k, unset ∅ k) as Hu by (intros k; by left).
  exists cfg. split; [reflexivity|].
  destruct (resolved_defaults ∅ cfg E) as (_ & _ & _ & Honce & Hct & _).
  split; [apply Hu|]. split; [exact (Hct (Hu _))|].
  split; [apply Hu | exact (Honce (Hu _))].
Defined.

(** ** Further facts: pieces, digits, and the two policies together *)

(** X19: cut at a marker that is not empty, no piece of the body holds the
    marker: replacing all occurrences leaves none of them in the text
    between the inserted units. *)
Theorem split_pieces_free (s m : jsstring) :
  m ≠ [] → Forall (λ piece, includes piece m = false) (split s m).
Proof.
  intros Hm. unfold split. destruct m as [|c m]; [done|].
  by apply split_loop_free.
Qed.

Lemma split_pieces_free_witness :
  js "</head>" ≠ []
  ∧ Forall (λ piece, includes piece (js "</head>") = false)
      (split pageTwice (js "</head>")).
Proof.
  assert (js "</head>" ≠ []) as H1 by discriminate.
  split; [exact H1|]. apply (split_pieces_free pageTwice (js "</head>") H1).
Defined.

Lemma decimalValue_of_uint (d : Decimal.uint) (acc : nat) :
  fold_left (λ acc c, (10 * acc + N.to_nat (c - 48))%nat)
    (js (NilEmpty.string_of_uint d)) acc
  = Nat.of_uint_acc d acc.
Proof.
  revert acc. induction d as [|d IH|d IH|d IH|d IH|d IH|d IH|d IH|d IH|d IH|d IH];
    intros acc; [done|..]; simpl; rewrite Nat.tail_mul_spec;
    unfold js in IH; rewrite <- IH; f_equal; simpl; lia.
Qed.

Lemma digits_of_uint (d : Decimal.uint) :
  Forall (λ c, 48 ≤ c ≤ 57) (js (NilEmpty.string_of_uint d)).
Proof.
  induction d; simpl; constructor; try done; lia.
Qed.

(** X20: the value written into the content-length header is a string of
    decimal digits, not empty, and it stands for the length it was made
    from. *)
Theorem Number_toString_decimal (n : nat) :
  Number_toString n ≠ []
  ∧ Forall (λ c, 48 ≤ c ≤ 57) (Number_toString n)
  ∧ decimalValue (Number_toString n) = n.
Proof.
  assert (decimalValue (Number_toString n) = n) as Hv.
  { unfold decimalValue, Number_toString. rewrite decimalValue_of_uint.
    apply Unsigned.of_to. }
  split; [|split; [apply digits_of_uint | exact Hv]].
  intros Hn. rewrite Hn in Hv. simpl in Hv. subst n. discriminate.
Qed.

Lemma inject_once_all_agree_witness :
  truthy (trim (INJECT_HTML plainConfig)) = true
  ∧ occursOnce page (INJECT_TARGET plainConfig) (js "<head>")
      (js "<body>hi</body>")
  ∧ dollarFree (payload plainConfig)
  ∧ out (injectIntoHtml (with_once true plainConfig) page)
    = out (injectIntoHtml (with_once false plainConfig) page).
Proof.
  assert (occursOnce page (INJECT_TARGET plainConfig) (js "<head>")
            (js "<body>hi</body>")) as H2
    by (split; [reflexivity | split; reflexivity]).
  assert (dollarFree (payload plainConfig)) as H3
    by (unfold dollarFree; apply (bool_decide_eq_false_1 (DOLLAR ∈ _));
        reflexivity).
  split; [reflexivity|]. split; [exact H2|]. split; [exact H3|].
  apply (inject_once_all_agree plainConfig page (js "<head>")
           (js "<body>hi</body>") eq_refl H2 H3).
Defined.

Lemma inject_all_twice_witness :
  truthy (trim (INJECT_HTML (with_once false dollarConfig))) = true
  ∧ INJECT_ONCE (with_once false dollarConfig) = false
  ∧ occursTwice pageTwice (INJECT_TARGET (with_once false dollarConfig))
      (js "<head>") (js "<p>") (js "</p>")
  ∧ out (injectIntoHtml (with_once false dollarConfig) pageTwice)
    = js "<head>" ++ payload (with_once false dollarConfig) ++ js "<p>"
        ++ payload (with_once false dollarConfig) ++ js "</p>".
Proof.
  assert (occursTwice pageTwice (INJECT_TARGET (with_once false dollarConfig))
            (js "<head>") (js "<p>") (js "</p>")) as H3
    by (split; [reflexivity | split; [reflexivity | split; reflexivity]]).
  split; [reflexivity|]. split; [reflexivity|]. split; [exact H3|].
  apply (inject_all_twice (with_once false dollarConfig) pageTwice
           (js "<head>") (js "<p>") (js "</p>") eq_refl eq_refl H3).
Defined.

Lemma inject_once_twice_witness :
  truthy (trim (INJECT_HTML plainConfig)) = true
  ∧ INJECT_ONCE plainConfig = true
  ∧ occursTwice pageTwice (INJECT_TARGET plainConfig)
      (js "<head>") (js "<p>") (js "</p>")
  ∧ dollarFree (payload plainConfig)
  ∧ out (injectIntoHtml plainConfig pageTwice)
    = js "<head>" ++ payload plainConfig ++ js "<p>"
        ++ INJECT_TARGET plainConfig ++ js "</p>".
Proof.
  assert (occursTwice pageTwice (INJECT_TARGET plainConfig)
            (js "<head>") (js "<p>") (js "</p>")) as H3
    by (split; [reflexivity | split; [reflexivity | split; reflexivity]]).
  assert (dollarFree (payload plainConfig)) as H4
    by (unfold dollarFree; apply (bool_decide_eq_false_1 (DOLLAR ∈ _));
        reflexivity).
  split; [reflexivity|]. split; [reflexivity|]. split; [exact H3|].
  split; [exact H4|].
  apply (inject_once_twice plainConfig pageTwice (js "<head>") (js "<p>")
           (js "</p>") eq_refl eq_refl H3 H4).
Defined.

(** ** The resolved configuration and the injector *)

(** Under a placement that is not "after", with a marker that is not empty
    and found in the body and a payload that is not blank, what is handed
    to replace or to join is the payload followed by the marker; and the
    output holds just that, right behind the text in front of the leftmost
    occurrence, when all occurrences are replaced or no dollar sign is in
    it. *)
Lemma inject_before_output (cfg : Config) (html : jsstring) (j : nat) :
  INJECT_MODE cfg ≠ js "after" → INJECT_TARGET cfg ≠ [] →
  ¬ blank (INJECT_HTML cfg) →
  indexOf html (INJECT_TARGET cfg) = Some j →
  out (injectIntoHtml cfg html)
  = (if INJECT_ONCE cfg
     then replace html (INJECT_TARGET cfg)
            (INJECT_HTML cfg ++ INJECT_TARGET cfg)
     else join (split html (INJECT_TARGET cfg))
            (INJECT_HTML cfg ++ INJECT_TARGET cfg))
  ∧ (INJECT_ONCE cfg = false
     ∨ dollarFree (INJECT_HTML cfg ++ INJECT_TARGET cfg) →
     ∃ rest,
       out (injectIntoHtml cfg html)
       = take j html ++ INJECT_HTML cfg ++ INJECT_TARGET cfg ++ rest).
Proof.
  intros Hm Hne Hb Hj. pose proof (not_blank_truthy _ Hb) as Hp.
  rewrite (injectIntoHtml_found cfg html j Hp Hj), (payload_before cfg Hm).
  simpl. split; [done|]. intros Hcase.
  destruct (INJECT_ONCE cfg).
  - destruct Hcase as [|Hd]; [done|].
    rewrite (replace_dollarFree _ _ _ j Hj Hd).
    exists (drop (j + length (INJECT_TARGET cfg)) html).
    by rewrite <- !app_assoc.
  - destruct (join_split_found html _ (INJECT_HTML cfg ++ INJECT_TARGET cfg)
                j Hne Hj) as [post ->].
    exists post. by rewrite <- !app_assoc.
Qed.

Section ConfiguredFacts.
Context `{JsRuntime}.


(** C10: a placement mode whose lower-case form is not "after" is taken for
    "before": the start-up goes through as it does with "before"; the
    insertion unit is the payload followed by the marker; the injector
    returns what it returns under "before"; and when it finds the marker,
    with a payload that is not blank, its output is the body with that
    unit handed to replace or to join, so that the payload followed by the
    marker stands behind the text in front of the leftmost occurrence
    whenever all occurrences are replaced or the unit holds no dollar
    sign. *)
Theorem unknown_mode_is_before (env : gmap string jsstring) (mode : jsstring)
    (cfg : Config) :
  resolveConfig (<["INJECT_MODE"%string := js "before"]> env) = Some cfg →
  toLowerCase mode ≠ js "after" →
  ∃ cfg',
    resolveConfig (<["INJECT_MODE"%string := mode]> env) = Some cfg'
    ∧ payload cfg' = INJECT_HTML cfg' ++ INJECT_TARGET cfg'
    ∧ (∀ html, injectIntoHtml cfg' html = injectIntoHtml cfg html)
    ∧ ∀ html j,
        ¬ blank (INJECT_HTML cfg') →
        indexOf html (INJECT_TARGET cfg') = Some j →
        out (injectIntoHtml cfg' html)
        = (if INJECT_ONCE cfg'
           then replace html (INJECT_TARGET cfg')
                  (INJECT_HTML cfg' ++ INJECT_TARGET cfg')
           else join (split html (INJECT_TARGET cfg'))
                  (INJECT_HTML cfg' ++ INJECT_TARGET cfg'))
        ∧ (INJECT_ONCE cfg' = false
           ∨ dollarFree (INJECT_HTML cfg' ++ INJECT_TARGET cfg') →
           ∃ rest,
             out (injectIntoHtml cfg' html)
             = take j html ++ INJECT_HTML cfg' ++ INJECT_TARGET cfg' ++ rest).
Proof.
  intros Hcfg Hmode'.
  assert (toLowerCase (js "before") = js "before") as Hlower
    by (rewrite toLowerCase_ascii; [done | by repeat constructor]).
  assert (toLowerCase (js_or (Some mode) (js "before")) ≠ js "after")
    as Hmode by (destruct mode; simpl; [by rewrite Hlower | done]).
  assert (INJECT_MODE cfg = js "before") as Hbefore.
  { apply resolveConfig_Some in Hcfg as (_ & _ & -> & _).
    by rewrite lookup_insert_eq. }
  destruct (resolveConfig (<["INJECT_MODE"%string := mode]> env))
    as [cfg'|] eqn:Hcfg'.
  2: { revert Hcfg Hcfg'. unfold resolveConfig.
       rewrite !lookup_insert_eq, !lookup_insert_ne by done.
       by destruct (mapM _ _). }
  assert (INJECT_MODE cfg' ≠ js "after") as Hm'.
  { apply resolveConfig_Some in Hcfg' as (_ & _ & -> & _).
    by rewrite lookup_insert_eq. }
  destruct (resolveConfig_nonempty _ _ Hcfg') as [_ Hne].
  exists cfg'. split; [done|]. split; [by apply payload_before|]. split.
  - intros html. apply inject_mode_irrelevant; [..| by rewrite Hbefore | done];
      revert Hcfg Hcfg'; unfold resolveConfig;
      rewrite !lookup_insert_eq, !lookup_insert_ne by done;
      destruct (mapM _ _); simpl; try done; by intros [= <-] [= <-].
  - intros html j Hb Hj. by apply inject_before_output.
Qed.

End ConfiguredFacts.


Lemma unknown_mode_is_before_witness :
  ∃ cfg cfg',
    resolveConfig (<["INJECT_MODE"%string := js "before"]> ∅) = Some cfg
    ∧ toLowerCase (js "Befor") ≠ js "after"
    ∧ resolveConfig (<["INJECT_MODE"%string := js "Befor"]> ∅) = Some cfg'
    ∧ payload cfg' = INJECT_HTML cfg' ++ INJECT_TARGET cfg'
    ∧ (∀ html, injectIntoHtml cfg' html = injectIntoHtml cfg html)
    ∧ out (injectIntoHtml cfg' page)
      = js "<head>" ++ DEFAULT_INJECT_HTML ++ js "</head><body>hi</body>".
Proof.
  destruct (resolveConfig (<["INJECT_MODE"%string := js "before"]> ∅))
    as [cfg|] eqn:H1; [|vm_compute in H1; discriminate].
  assert (toLowerCase (js "Befor") ≠ js "after") as H2 by discriminate.
  destruct (unknown_mode_is_before ∅ (js "Befor") cfg H1 H2)
    as (cfg' & H3 & H4 & H5 & H6).
  exists cfg, cfg'.
  split; [reflexivity|]. split; [exact H2|]. split; [exact H3|].
  split; [exact H4|]. split; [exact H5|].
  pose proof (resolveConfig_Some _ _ H3) as (Hh & Ht & _).
  assert (¬ blank (INJECT_HTML cfg')) as Hb.
  { rewrite Hh. intros [Hc _]%Forall_cons. discriminate. }
  assert (indexOf page (INJECT_TARGET cfg') = Some 6%nat) as Hj
    by (by rewrite Ht).
  destruct (H6 page 6%nat Hb Hj) as [Hout _].
  rewrite Hout.
  assert (INJECT_ONCE cfg' = true) as ->.
  { revert H3. unfold resolveConfig. destruct (mapM _ _); simpl; [|done].
    by intros [= <-]. }
  rewrite Hh, Ht. vm_compute. reflexivity.
Defined.

(** C8 at a URL with a query string: the pattern is the one for what ends
    in .php; the request for /index.php is handed back untouched, but the
    request for /index.php?x=1, whose path is the same, is tested with its
    query string, is not marked, and its page is rewritten. *)
Theorem excluded_path_with_query_rewritten :
  pathname (url phpQuery) = url phpVisit
  ∧ test phpPattern (pathname (url phpQuery)) = true
  ∧ forwardedUntouched pageBytes htmlResponse
      (handle phpConfig phpVisit pageBytes htmlResponse)
  ∧ isExcludedPath phpConfig (url phpQuery) = false
  ∧ sent (handle phpConfig phpQuery pageBytes htmlResponse)
    = StringBody (js "<head><script></script></head><body>hi</body>")
  ∧ headers (response (handle phpConfig phpQuery pageBytes htmlResponse))
      !! js "content-length"
    = Some (js "45").
Proof. repeat split; vm_compute; reflexivity. Qed.
